(** * BloonGuessr: the game service and the guess route

    A shallow embedding of [services/gameService.ts] (feed extraction, photo
    cache, secure shuffle, round assembly, distance and score) and of
    [routes/balloon.ts] (the guess handler).

    Conventions.
    - JSON payloads are [jsvalue]s; a JavaScript number found in a payload is
      an IEEE-754 binary64 [float], compared with the primitive comparisons,
      so that [NaN], signed zeros and the truthiness rules are the ones of the
      language.
    - The geometry ([calculateDistance], [calculateScore]) calls [Math.sin],
      [Math.cos], [Math.atan2], [Math.sqrt] and [Math.exp].  It is read twice:
      in [Scoring] over the real numbers, i.e. up to the rounding of every
      operation, and in [Float64] on binary64 numbers, where the arithmetic
      and [Math.sqrt] are the IEEE-754 ones and the other four functions are
      those of the engine that runs the service.  The second reading decides
      what the first cannot: whether a result is a number at all.
    - Time stamps ([Date.now()]) are integers (milliseconds).
    - The outside world (HTTP services, clock, entropy, cache file) is an
      explicit state threaded through the asynchronous functions. *)

From Stdlib Require Uint63.
From Stdlib Require Import Floats.PrimFloat Floats.SpecFloat Floats.FloatOps.
From Stdlib Require Import Floats.FloatAxioms.
From Stdlib Require Import ZArith Lia Reals Machin Lra Permutation.
From stdpp Require Import base option list strings gmap pretty.

Set Default Proof Using "Type".
Set Warnings "-register-all".

(** ** JavaScript values *)

Module JS.

(** A value as [JSON.parse] builds it (plus [undefined], which reads of
    missing properties and elements produce).  An object lists its
    properties, each key once, in enumeration order. *)
Inductive jsvalue : Type :=
| JUndefined
| JNull
| JBool (b : bool)
| JNum (x : float)
| JStr (s : string)
| JArr (items : list jsvalue)
| JObj (props : list (string * jsvalue)).

(** [x !== x] holds of [NaN] only. *)
Definition is_nan (x : float) : bool := negb (PrimFloat.eqb x x).

(** ToBoolean.  [0], [-0] and [NaN] are the falsy numbers, the empty string
    the falsy string; arrays and objects are always truthy. *)
Definition truthy (v : jsvalue) : bool :=
  match v with
  | JUndefined | JNull => false
  | JBool b => b
  | JNum x => negb (PrimFloat.eqb x 0%float || is_nan x)
  | JStr s => negb (String.eqb s "")
  | JArr _ | JObj _ => true
  end.

(** [a || b]: the left operand when it is truthy, the right one otherwise. *)
Definition or (a b : jsvalue) : jsvalue := if truthy a then a else b.

(** [o.k] on a parsed JSON value; an array parsed from JSON has no named
    property among the ones the program reads. *)
Fixpoint assoc (k : string) (props : list (string * jsvalue)) : jsvalue :=
  match props with
  | [] => JUndefined
  | (k', v) :: rest => if String.eqb k k' then v else assoc k rest
  end.

Definition get (o : jsvalue) (k : string) : jsvalue :=
  match o with
  | JObj props => assoc k props
  | _ => JUndefined
  end.

(** [a[i]]: [undefined] past the end. *)
Definition at_index (items : list jsvalue) (i : nat) : jsvalue :=
  default JUndefined (items !! i).

(** [typeof v === 'object'] *)
Definition typeof_object (v : jsvalue) : bool :=
  match v with JNull | JArr _ | JObj _ => true | _ => false end.

(** [typeof v === 'number'] *)
Definition typeof_number (v : jsvalue) : bool :=
  match v with JNum _ => true | _ => false end.

(** [Math.round] on a binary64: the nearest integer, ties towards
    [+Infinity]; [NaN], the infinities and the zeros are returned as they are.
    A finite [x = (-1)^s * m * 2^e] with [0 <= e] is an integer already;
    otherwise [floor (x + 1/2)] is computed exactly on integers and is below
    [2^53] in magnitude, hence representable. *)
Definition Math_round (x : float) : float :=
  match Prim2SF x with
  | S754_finite s m e =>
      if (0 <=? e)%Z then x
      else
        let num := ((if s then Z.neg m else Z.pos m) * 2 + 2 ^ (- e))%Z in
        let n := (num / 2 ^ (1 - e))%Z in
        if (0 <? n)%Z then PrimFloat.of_uint63 (Uint63.of_Z n)
        else if (n <? 0)%Z
             then PrimFloat.opp (PrimFloat.of_uint63 (Uint63.of_Z (- n)))
             else if s then (-0)%float else 0%float
  | _ => x
  end.

End JS.

Export JS.

Declare Scope js_scope.
Delimit Scope js_scope with js.
Infix "||" := JS.or (at level 50, left associativity) : js_scope.

(** ** Balloon feed reader *)

Module Feed.

(** [interface BalloonData].  At run time [id] and [alt] are whatever the
    payload held ([item: any]), hence [jsvalue]s. *)
Record BalloonData : Type := mkBalloon {
  id : jsvalue;
  lat : float;
  lon : float;
  alt : jsvalue
}.

(** [lat >= -90 && lat <= 90 && lon >= -180 && lon <= 180] *)
Definition in_bounds (la lo : float) : bool :=
  PrimFloat.leb (-90)%float la && PrimFloat.leb la 90%float
  && PrimFloat.leb (-180)%float lo && PrimFloat.leb lo 180%float.

(** The array branch of [extractCoordinates]: [[lat, lon, alt]]. *)
Definition fromArray (item : jsvalue) (id : string) : option BalloonData :=
  match item with
  | JArr xs =>
      let lat := at_index xs 0 in
      let lon := at_index xs 1 in
      let alt := at_index xs 2 in
      match lat, lon with
      | JNum la, JNum lo =>
          if in_bounds la lo
          then Some (mkBalloon (JStr id) la lo
                       (if typeof_number alt then alt else JUndefined))
          else None
      | _, _ => None
      end
  | _ => None
  end.

(** The object branch (fallback): the first truthy spelling wins. *)
Definition fromObject (item : jsvalue) (id : string) : option BalloonData :=
  if typeof_object item then
    let lat := (get item "lat" || get item "latitude"
                || get item "Lat" || get item "Latitude")%js in
    let lon := (get item "lon" || get item "lng" || get item "longitude"
                || get item "Lon" || get item "Longitude")%js in
    match lat, lon with
    | JNum la, JNum lo =>
        if in_bounds la lo
        then Some (mkBalloon
                     (get item "id" || get item "ID"
                      || get item "balloon_id" || JStr id)%js
                     la lo
                     (get item "alt" || get item "altitude"
                      || get item "Alt" || get item "Altitude")%js)
        else None
    | _, _ => None
    end
  else None.

Definition extractCoordinates (item : jsvalue) (id : string)
  : option BalloonData :=
  if negb (truthy item) then None
  else match fromArray item id with
       | Some b => Some b
       | None => fromObject item id
       end.


(** [fetchBalloonData], the part that turns one hourly payload into
    observations: an object with numbered keys, or an array. *)
Definition extractAll (data : jsvalue) : list BalloonData :=
  match data with
  | JObj props =>
      (* for (const key in data) *)
      omap (λ '(key, item), extractCoordinates item key) props
  | JArr items =>
      (* data.map((item, index) => ...).filter(Boolean) *)
      omap (λ o, o)
        (imap (λ index item, extractCoordinates item (pretty index)) items)
  | _ =>
      (* [null] has type 'object' and no key; any other value takes neither
         branch *)
      []
  end.

(** The observations of hour [h] of a feed that answers [payload h]. *)
Definition hourly (payload : nat → option jsvalue) (h : nat)
  : list BalloonData :=
  from_option extractAll [] (payload h).

End Feed.

Export Feed.

(** ** Secure shuffle *)

Module Shuffle.

#[local] Open Scope Z_scope.

(** The entropy source behind [crypto.randomBytes]: an unbounded supply of
    bytes, read in order. *)
Definition Entropy : Type := nat → Byte.byte.

Definition randomBytes (n : nat) (e : Entropy) : list Byte.byte * Entropy :=
  (map e (seq 0 n), λ k, e (n + k)%nat).

Definition byte_value (b : Byte.byte) : Z := Z.of_N (Byte.to_N b).

(** [Math.ceil(Math.log2(range) / 8)], for [1 <= range]: the least [k] with
    [range <= 256^k]. *)
Definition bytesNeeded (range : Z) : Z := (Z.log2_up range + 7) / 8.

(** [secureRandomInt(max)], for [1 <= max].  The quotient
    [randomValue / maxValue] is a division by a power of two and the product
    with [range] is floored, which on integers is the floor of
    [randomValue * range / maxValue] (exactly so while
    [randomValue * range < 2^53], that is for any range up to [2^24]). *)
Definition secureRandomInt (max : Z) (e : Entropy) : Z * Entropy :=
  let range := max in
  let bytesNeeded := bytesNeeded range in
  let maxValue := 256 ^ bytesNeeded in
  let '(bytes, e') := randomBytes (Z.to_nat bytesNeeded) e in
  let randomValue :=
    foldl (λ randomValue b, randomValue * 256 + byte_value b) 0 bytes in
  (randomValue * range / maxValue, e').

Section Arrays.
Context {T : Type}.
(** What reading past the end of an array yields. *)
Variable undefined : T.

(** [a[i]] *)
Definition array_get (a : list T) (i : nat) : T := default undefined (a !! i).

(** [a[i] = v]: a write past the end grows the array, leaving holes. *)
Definition array_set (a : list T) (i : nat) (v : T) : list T :=
  if decide (i < length a)%nat then <[i:=v]> a
  else a ++ replicate (i - length a) undefined ++ [v].

(** [[a[i], a[j]] = [a[j], a[i]]]: both reads come first. *)
Definition swap (a : list T) (i j : nat) : list T :=
  let x := array_get a j in
  let y := array_get a i in
  array_set (array_set a i x) j y.

(** The loop [for (let i = shuffled.length - 1; i > 0; i--)], entered at
    index [i]. *)
Fixpoint shuffleFrom (i : nat) (shuffled : list T) (e : Entropy)
  : list T * Entropy :=
  match i with
  | O => (shuffled, e)
  | S i' =>
      let '(j, e') := secureRandomInt (Z.of_nat i + 1) e in
      shuffleFrom i' (swap shuffled i (Z.to_nat j)) e'
  end.

Definition shuffleArray (array : list T) (e : Entropy) : list T * Entropy :=
  let shuffled := array in
  shuffleFrom (length shuffled - 1) shuffled e.

End Arrays.

End Shuffle.

(** ** The photo cache and the outside world *)

Module Cache.

(** [interface CachedPhoto] *)
Record CachedPhoto : Type := mkCached {
  balloonId : jsvalue;
  photoUrl : string;
  photoAttribution : string;
  locationName : string;
  timestamp : Z
}.

(** [interface PhotoCache]: the parsed document, keyed by balloon id. *)
Abbreviation PhotoCache := (gmap string CachedPhoto).

(** [CACHE_DURATION = 24 * 60 * 60 * 1000] *)
Definition CACHE_DURATION : Z := 24 * 60 * 60 * 1000.

(** The parsed document is a plain object, so besides its own entries it
    has the members of [Object.prototype]. *)
Definition inheritedKeys : list string :=
  ["constructor"; "__proto__"; "hasOwnProperty"; "isPrototypeOf";
   "propertyIsEnumerable"; "toLocaleString"; "toString"; "valueOf";
   "__defineGetter__"; "__defineSetter__"; "__lookupGetter__";
   "__lookupSetter__"].

(** What [cache[balloonId]] reads: an entry of the document, a member of
    [Object.prototype] (a function, or the prototype itself: truthy, and
    without a [timestamp]), or [undefined]. *)
Inductive Cached : Type :=
| Own (entry : CachedPhoto)
| Inherited
| Undefined.

Definition read (cache : PhotoCache) (key : string) : Cached :=
  match cache !! key with
  | Some entry => Own entry
  | None => if bool_decide (key ∈ inheritedKeys) then Inherited else Undefined
  end.

(** [cache[balloonId] = cachedPhoto].  On an object without an own
    ["__proto__"] property the assignment to that key goes to the setter
    inherited from [Object.prototype]: it changes the prototype of [cache] and
    adds no entry.  Every other key, inherited or not, becomes an own
    property. *)
Definition write (cache : PhotoCache) (key : string) (entry : CachedPhoto)
  : PhotoCache :=
  if bool_decide (key = "__proto__") && bool_decide (cache !! key = None)
  then cache
  else <[key := entry]> cache.

(** What is at [CACHE_FILE]: nothing, something that cannot be read or
    parsed, or a document. *)
Inductive CacheFile : Type :=
| Missing
| Unreadable
| Document (content : PhotoCache).

(** The file and whether the next write goes through (directory creation and
    [writeFileSync] both succeed). *)
Record FileSystem : Type := mkFs {
  file : CacheFile;
  writable : bool
}.

End Cache.

(** [fetchUnsplashPhoto]'s result. *)
Module Unsplash.
Record Photo : Type := mk {
  url : string;
  attribution : string
}.
End Unsplash.

(** [getPhotoForLocation]'s result. *)
Module Located.
Record Photo : Type := mk {
  url : string;
  attribution : string;
  locationName : string;
  lat : float;
  lon : float;
  distance : float
}.
End Located.

Module Host.

Import Cache.

(** The state every asynchronous function runs in: the environment of the
    remote services and of the clock, the cache file and the entropy. *)
Record World (Env : Type) : Type := mkWorld {
  env : Env;
  fs : FileSystem;
  entropy : Shuffle.Entropy
}.
Arguments mkWorld {Env} _ _ _.
Arguments env {Env} _.
Arguments fs {Env} _.
Arguments entropy {Env} _.

(** The remote services and the built-ins the program calls without defining
    them.  [feed hour] is [axios.get] on the hourly file ([None]: the request
    was rejected, with a 404 or otherwise); [reverseGeocode] and
    [fetchUnsplashPhoto] are the two lookups, which catch their own errors
    and answer [null] ([None]); [Date_now] is [Date.now()];
    [String_of] is the conversion of a value used as a property key. *)
Record Services (Env : Type) : Type := mkServices {
  feed : nat → Env → option jsvalue * Env;
  reverseGeocode : float → float → Env → option string * Env;
  fetchUnsplashPhoto : string → float → float → Env → option Unsplash.Photo * Env;
  Date_now : Env → Z * Env;
  String_of : jsvalue → string
}.
Arguments feed {Env} _ _ _.
Arguments reverseGeocode {Env} _ _ _ _.
Arguments fetchUnsplashPhoto {Env} _ _ _ _ _.
Arguments Date_now {Env} _ _.
Arguments String_of {Env} _ _.

(** Computations over the world. *)
Definition Async (Env A : Type) : Type := World Env → A * World Env.

Definition ret {Env A} (a : A) : Async Env A := λ w, (a, w).

Definition bind {Env A B} (m : Async Env A) (k : A → Async Env B)
  : Async Env B :=
  λ w, let '(a, w') := m w in k a w'.

(** A call into the environment. *)
Definition call {Env A} (f : Env → A * Env) : Async Env A :=
  λ w, let '(a, e') := f (env w) in (a, mkWorld e' (fs w) (entropy w)).

End Host.

Notation "'let*' x ':=' m 'in' k" := (Host.bind m (λ x, k))
  (at level 10, x binder, m at level 100, k at level 200,
   format "'[v' 'let*'  x  ':='  m  'in' '/' k ']'").

(** ** Round assembly *)

Module Game.

Import Host.

(** [interface GameRound] *)
Record GameRound : Type := mkRound {
  balloonLat : float;
  balloonLon : float;
  balloonId : jsvalue;
  photoUrl : string;
  photoAttribution : string;
  locationName : string;
  photoLat : float;
  photoLon : float;
  distanceKm : float
}.

(** A round whose photo sits on the balloon, at distance zero. *)
Definition on_balloon (r : GameRound) : Prop :=
  photoLat r = balloonLat r ∧ photoLon r = balloonLon r
  ∧ distanceKm r = 0%float.

(** A round that was made for a given balloon. *)
Definition made_for (b : BalloonData) (r : GameRound) : Prop :=
  balloonId r = id b ∧ balloonLat r = lat b ∧ balloonLon r = lon b.

(** The two errors [createGameRound] throws. *)
Inductive GameError : Type :=
| NoBalloonData
| NoPhotos.

Definition message (e : GameError) : string :=
  match e with
  | NoBalloonData =>
      "No balloon data available. The WindBorne API might be down."
  | NoPhotos =>
      "Could not find any photos for the selected balloons. Please try again!"
  end.

(** [a.slice(0, end)]: a negative [end] counts from the end of the array. *)
Definition slice_to {T} (a : list T) (fin : Z) : list T :=
  let len := Z.of_nat (length a) in
  let k := if (fin <? 0)%Z then Z.max (len + fin) 0 else Z.min fin len in
  take (Z.to_nat k) a.

(** What an element read past the end of an array of observations would be;
    the shuffle never reads one. *)
Definition undefinedBalloon : BalloonData :=
  mkBalloon JUndefined nan nan JUndefined.

Section Game.
Context {Env : Type} (svc : Services Env).

(** [loadCache]: the document when the file is there and parses, the empty
    cache otherwise. *)
Definition loadCache : Async Env Cache.PhotoCache :=
  λ w, (match Cache.file (fs w) with
        | Cache.Document content => content
        | _ => ∅
        end, w).

(** [saveCache]: the whole document is replaced; a failure is logged and
    swallowed. *)
Definition saveCache (cache : Cache.PhotoCache) : Async Env unit :=
  λ w, if Cache.writable (fs w)
       then (tt, mkWorld (env w) (Cache.mkFs (Cache.Document cache) true)
                   (entropy w))
       else (tt, w).

Definition isCacheValid (cached : Cache.CachedPhoto) : Async Env bool :=
  let* now := call (Date_now svc) in
  ret (now - Cache.timestamp cached <? Cache.CACHE_DURATION)%Z.

(** [fetchBalloonData]: hours [hour], [hour + 1], ... for [n] attempts; the
    first payload with a valid observation wins. *)
Fixpoint fetchFrom (n hour : nat) : Async Env (list BalloonData) :=
  match n with
  | O => ret []
  | S n' =>
      let* response := call (feed svc hour) in
      match response with
      | Some data =>
          let balloons := extractAll data in
          if (0 <? length balloons)%nat then ret balloons
          else fetchFrom n' (S hour)
      | None => fetchFrom n' (S hour)
      end
  end.

Definition fetchBalloonData : Async Env (list BalloonData) :=
  fetchFrom 24 0.

Definition getPhotoForLocation (balloonId : jsvalue) (lat lon : float)
  : Async Env (option Located.Photo) :=
  let* cache := loadCache in
  let key := String_of svc balloonId in
  let cached := Cache.read cache key in
  let* hit :=
    match cached with
    | Cache.Own c =>
        let* valid := isCacheValid c in
        (* both log lines read the clock once more *)
        let* _ := call (Date_now svc) in
        ret (if valid then Some c else None)
    | Cache.Inherited =>
        (* isCacheValid: [now - undefined] is NaN, never below the duration;
           then the log line of the expired branch *)
        let* _ := call (Date_now svc) in
        let* _ := call (Date_now svc) in
        ret None
    | Cache.Undefined => ret None
    end in
  match hit with
  | Some c =>
      ret (Some (Located.mk (Cache.photoUrl c) (Cache.photoAttribution c)
                   (Cache.locationName c) lat lon 0%float))
  | None =>
      let* locationName := call (reverseGeocode svc lat lon) in
      match locationName with
      | None | Some "" => ret None
      | Some locationName =>
          let* photo := call (fetchUnsplashPhoto svc locationName lat lon) in
          match photo with
          | None => ret None
          | Some photo =>
              let* now := call (Date_now svc) in
              let cachedPhoto :=
                Cache.mkCached balloonId (Unsplash.url photo)
                  (Unsplash.attribution photo) locationName now in
              let* _ := saveCache (Cache.write cache key cachedPhoto) in
              ret (Some (Located.mk (Unsplash.url photo)
                           (Unsplash.attribution photo) locationName
                           lat lon 0%float))
          end
      end
  end.

Definition makeRound (balloon : BalloonData) (photo : Located.Photo)
  : GameRound :=
  mkRound (lat balloon) (lon balloon) (id balloon)
    (Located.url photo) (Located.attribution photo)
    (Located.locationName photo) (Located.lat photo) (Located.lon photo)
    (Math_round (Located.distance photo)).

(** The loop
    [for (i = 0; i < selectedBalloons.length && rounds.length < numRounds; i++)],
    on the balloons not yet visited. *)
Fixpoint collect (numRounds : Z) (selectedBalloons : list BalloonData)
    (rounds : list GameRound) : Async Env (list GameRound) :=
  match selectedBalloons with
  | [] => ret rounds
  | balloon :: rest =>
      if (Z.of_nat (length rounds) <? numRounds)%Z then
        let* photo :=
          getPhotoForLocation (id balloon) (lat balloon) (lon balloon) in
        match photo with
        | Some photo =>
            collect numRounds rest (rounds ++ [makeRound balloon photo])
        | None => collect numRounds rest rounds
        end
      else ret rounds
  end.

(** The rounds that survive when the photo of every balloon of a list is
    looked up, in order, whatever the number of rounds asked for. *)
Fixpoint resolveAll (balloons : list BalloonData)
  : Async Env (list GameRound) :=
  match balloons with
  | [] => ret []
  | balloon :: rest =>
      let* photo :=
        getPhotoForLocation (id balloon) (lat balloon) (lon balloon) in
      let* rounds := resolveAll rest in
      ret (match photo with
           | Some photo => makeRound balloon photo :: rounds
           | None => rounds
           end)
  end.

(** [shuffleArray(balloons)], on the world's entropy. *)
Definition shuffleBalloons (balloons : list BalloonData)
  : Async Env (list BalloonData) :=
  λ w, let '(shuffled, e') :=
         Shuffle.shuffleArray undefinedBalloon balloons (entropy w) in
       (shuffled, mkWorld (env w) (fs w) e').

Definition createGameRound (numRounds : Z)
  : Async Env (GameError + list GameRound) :=
  let* balloons := fetchBalloonData in
  if (length balloons =? 0)%nat then ret (inl NoBalloonData)
  else
    let* shuffledBalloons := shuffleBalloons balloons in
    let selectedBalloons :=
      slice_to shuffledBalloons
        (Z.min (numRounds * 3) (Z.of_nat (length shuffledBalloons))) in
    let* rounds := collect numRounds selectedBalloons [] in
    if (length rounds =? 0)%nat then ret (inl NoPhotos)
    else ret (inr rounds).

End Game.

End Game.

(** ** Distance and score, over the reals *)

(** The formulas of [calculateDistance] and [calculateScore] in exact
    arithmetic.  What is proved of them holds of the service up to rounding,
    and wherever the service computes a number: two points that are almost
    antipodal can leave it with none, see [Float64] below. *)
Module Scoring.

#[local] Open Scope R_scope.

Definition toRad (degrees : R) : R := degrees * (PI / 180).

(** [Math.atan2(y, x)]: the angle of the point [(x, y)], in [(-PI, PI]]. *)
Definition atan2 (y x : R) : R :=
  if Rlt_dec 0 x then atan (y / x)
  else if Rlt_dec x 0 then
    if Rle_dec 0 y then atan (y / x) + PI else atan (y / x) - PI
  else if Rlt_dec 0 y then PI / 2
  else if Rlt_dec y 0 then - (PI / 2)
  else 0.

(** [Math.round(x)]: [floor (x + 1/2)]. *)
Definition Math_round (x : R) : R := IZR (Int_part (x + / 2)).

(** Haversine formula. *)
Definition calculateDistance (lat1 lon1 lat2 lon2 : R) : R :=
  let radius := 6371 in
  let dLat := toRad (lat2 - lat1) in
  let dLon := toRad (lon2 - lon1) in
  let a :=
    sin (dLat / 2) * sin (dLat / 2) +
    cos (toRad lat1) * cos (toRad lat2) *
    sin (dLon / 2) * sin (dLon / 2) in
  let c := 2 * atan2 (sqrt a) (sqrt (1 - a)) in
  let distance := radius * c in
  distance.

Definition calculateScore (actualLat actualLon guessLat guessLon : R) : R :=
  let distance := calculateDistance actualLat actualLon guessLat guessLon in
  let maxScore := 5000 in
  let perfectRadius := 500 in
  if Rle_dec distance perfectRadius then maxScore
  else
    let adjustedDistance := distance - perfectRadius in
    let score := Math_round (maxScore * exp (- adjustedDistance / 2500)) in
    Rmax 0 score.




End Scoring.

(** ** Distance and score on binary64 numbers *)

Module Float64.

#[local] Open Scope float_scope.

(** The functions of [Math] whose results the language leaves to the engine.
    [Math.sqrt] is not one of them: it is the IEEE-754 square root. *)
Record Engine : Type := mkEngine {
  Math_sin : float → float;
  Math_cos : float → float;
  Math_atan2 : float → float → float;
  Math_exp : float → float
}.

(** What the language fixes of them for the argument [NaN]. *)
Definition nan_rules (m : Engine) : Prop :=
  (∀ y : float, Math_atan2 m y nan = nan) ∧ Math_exp m nan = nan.

(** [Math.PI] *)
Definition Math_PI : float := 0x1.921fb54442d18p+1.

(** [Math.max] of two numbers: [NaN] when one of them is, and [+0] is larger
    than [-0]. *)
Definition Math_max (x y : float) : float :=
  if is_nan x || is_nan y then nan
  else if x <? y then y
  else if y <? x then x
  else match Prim2SF x with S754_zero true => y | _ => x end.

Definition toRad (degrees : float) : float := degrees * (Math_PI / 180).

Section Float64.
Variable m : Engine.

Definition calculateDistance (lat1 lon1 lat2 lon2 : float) : float :=
  let radius := 6371 in
  let dLat := toRad (lat2 - lat1) in
  let dLon := toRad (lon2 - lon1) in
  let a :=
    Math_sin m (dLat / 2) * Math_sin m (dLat / 2) +
    Math_cos m (toRad lat1) * Math_cos m (toRad lat2) *
    Math_sin m (dLon / 2) * Math_sin m (dLon / 2) in
  let c := 2 * Math_atan2 m (PrimFloat.sqrt a) (PrimFloat.sqrt (1 - a)) in
  let distance := radius * c in
  distance.

(** The constant [a] of [calculateDistance]. *)
Definition haversine (lat1 lon1 lat2 lon2 : float) : float :=
  let dLat := toRad (lat2 - lat1) in
  let dLon := toRad (lon2 - lon1) in
  Math_sin m (dLat / 2) * Math_sin m (dLat / 2) +
  Math_cos m (toRad lat1) * Math_cos m (toRad lat2) *
  Math_sin m (dLon / 2) * Math_sin m (dLon / 2).

Definition calculateScore (actualLat actualLon guessLat guessLon : float)
  : float :=
  let distance := calculateDistance actualLat actualLon guessLat guessLon in
  let maxScore := 5000 in
  let perfectRadius := 500 in
  if distance <=? perfectRadius then maxScore
  else
    let adjustedDistance := distance - perfectRadius in
    let score :=
      JS.Math_round (maxScore * Math_exp m (- adjustedDistance / 2500)) in
    Math_max 0 score.

(** Sine and cosine at the arguments that the call
    [calculateScore(-87.5, -179, 87.5, 1)] passes to them, each rounded to
    the nearest binary64 number:
    [sin 1.5271630954950384 = 0.9990482215818578],
    [cos 1.5271630954950384 = 0.04361938736533601] and
    [sin 1.5707963267948966 = 1]. *)
Definition nearest_at_sample : Prop :=
  Math_sin m 0x1.86f4291ecf2f4p+0 = 0x1.ff833f9da45f7p-1
  ∧ Math_cos m 0x1.86f4291ecf2f4p+0 = 0x1.65547c4694e12p-5
  ∧ Math_cos m (-0x1.86f4291ecf2f4p+0) = 0x1.65547c4694e12p-5
  ∧ Math_sin m 0x1.921fb54442d18p+0 = 1.

End Float64.

End Float64.

(** ** The guess route *)

Module Route.

Record Response : Type := mkResponse {
  status : Z;
  body : jsvalue
}.

Section Route.
(** The two imports of the route from the game service, applied to whatever
    the request body held; [getWeatherData] answers [None] when its promise
    is rejected. *)
Variable calculateScore : jsvalue → jsvalue → jsvalue → jsvalue → jsvalue.
Variable getWeatherData : jsvalue → jsvalue → option jsvalue.

Definition missingCoordinates : Response :=
  mkResponse 400 (JObj [("error", JStr "Missing required coordinates")]).

Definition failed : Response :=
  mkResponse 500 (JObj [("error", JStr "Failed to calculate score")]).

(** [balloonRouter.post('/game/guess', ...)] on the parsed request body. *)
Definition guess (reqBody : jsvalue) : Response :=
  match reqBody with
  | JUndefined | JNull =>
      (* destructuring throws; the handler catches *)
      failed
  | _ =>
      let actualLat := get reqBody "actualLat" in
      let actualLon := get reqBody "actualLon" in
      let guessLat := get reqBody "guessLat" in
      let guessLon := get reqBody "guessLon" in
      if negb (truthy actualLat) || negb (truthy actualLon)
         || negb (truthy guessLat) || negb (truthy guessLon)
      then missingCoordinates
      else
        let score := calculateScore actualLat actualLon guessLat guessLon in
        match getWeatherData actualLat actualLon with
        | Some weather =>
            mkResponse 200
              (JObj [("score", score);
                     ("actualLocation",
                      JObj [("lat", actualLat); ("lon", actualLon)]);
                     ("weather", weather)])
        | None => failed
        end
  end.

End Route.

End Route.

(** ** The start route and the geocoder's answer *)

Module Start.

(** The round as [res.json] receives it. *)
Definition roundValue (r : Game.GameRound) : jsvalue :=
  JObj [("balloonId", Game.balloonId r);
        ("balloonLat", JNum (Game.balloonLat r));
        ("balloonLon", JNum (Game.balloonLon r));
        ("photoUrl", JStr (Game.photoUrl r));
        ("photoAttribution", JStr (Game.photoAttribution r));
        ("locationName", JStr (Game.locationName r));
        ("photoLat", JNum (Game.photoLat r));
        ("photoLon", JNum (Game.photoLon r));
        ("distanceKm", JNum (Game.distanceKm r))].

Definition failed : Route.Response :=
  Route.mkResponse 500 (JObj [("error", JStr "Failed to start game")]).

(** [balloonRouter.get('/game/start', ...)]: a game of five rounds; whatever
    [createGameRound] throws is caught. *)
Definition start {Env : Type} (svc : Host.Services Env)
  : Host.Async Env Route.Response :=
  let* outcome := Game.createGameRound svc 5 in
  Host.ret (match outcome with
            | inr rounds =>
                Route.mkResponse 200
                  (JObj [("rounds", JArr (roundValue <$> rounds))])
            | inl _ => failed
            end).

End Start.

Module Geocode.

(** [reverseGeocode], from the outcome of the request to the geocoding
    service: [None] when the request is rejected (the function catches and
    answers [null]), the response's [data] otherwise. *)
Definition reverseGeocode (response : option jsvalue) : option jsvalue :=
  match response with
  | None => None
  | Some data =>
      (* response.data?.address *)
      let address :=
        match data with
        | JUndefined | JNull => JUndefined
        | _ => get data "address"
        end in
      if negb (truthy address) then None
      else
        let locationName :=
          (get address "city" || get address "town" || get address "state"
           || get address "country" || get address "ocean"
           || get address "sea" || JStr "Unknown Location")%js in
        Some locationName
  end.

End Geocode.

(** ** The distance the browser displays, over the reals *)

Module Client.

#[local] Open Scope R_scope.

(** [while (lon > 180) lon -= 360;] with a bound on the number of turns;
    [None] when the bound is reached. *)
Fixpoint lower (fuel : nat) (lon : R) : option R :=
  if Rlt_dec 180 lon then
    match fuel with
    | O => None
    | S fuel' => lower fuel' (lon - 360)
    end
  else Some lon.

(** [while (lon < -180) lon += 360;] *)
Fixpoint raise (fuel : nat) (lon : R) : option R :=
  if Rlt_dec lon (-180) then
    match fuel with
    | O => None
    | S fuel' => raise fuel' (lon + 360)
    end
  else Some lon.

Definition normalizeLongitude (fuel : nat) (lon : R) : option R :=
  lon ← lower fuel lon; raise fuel lon.

Definition toRad (degrees : R) : R := degrees * (PI / 180).

(** [calculateDistance] of [game.js]. *)
Definition calculateDistance (fuel : nat) (lat1 lon1 lat2 lon2 : R)
  : option R :=
  lon1 ← normalizeLongitude fuel lon1;
  lon2 ← normalizeLongitude fuel lon2;
  let radius := 6371 in
  let dLat := toRad (lat2 - lat1) in
  let dLon := lon2 - lon1 in
  let dLon := if Rlt_dec 180 dLon then dLon - 360 else dLon in
  let dLon := if Rlt_dec dLon (-180) then dLon + 360 else dLon in
  let dLon := toRad dLon in
  let a :=
    sin (dLat / 2) * sin (dLat / 2) +
    cos (toRad lat1) * cos (toRad lat2) *
    sin (dLon / 2) * sin (dLon / 2) in
  let c := 2 * Scoring.atan2 (sqrt a) (sqrt (1 - a)) in
  let distance := radius * c in
  Some distance.

End Client.

(** ** Bytes of a number, most significant first *)

Module Bytes.

#[local] Open Scope Z_scope.

Definition byte_of (z : Z) : Byte.byte :=
  default Byte.x00 (Byte.of_N (Z.to_N z)).

(** The [k] low bytes of [v], big-endian. *)
Fixpoint big_endian (k : nat) (v : Z) : list Byte.byte :=
  match k with
  | O => []
  | S k' => big_endian k' (v / 256) ++ [byte_of (v mod 256)]
  end.

(** An entropy that starts with the given bytes. *)
Definition starting_with (bytes : list Byte.byte) : Shuffle.Entropy :=
  λ i, default Byte.x00 (bytes !! i).

End Bytes.

(** ** A small world to run the game in

    Hour 00 of the feed is missing; hour 01 holds four entries, one of them
    with an invalid latitude.  The geocoder knows no place in the southern
    hemisphere, the photo search always answers, the clock advances by one
    second per reading. *)

Module Demo.

Import Host.

#[local] Open Scope float_scope.

Definition payload : jsvalue :=
  JArr [ JArr [JNum 45.0; JNum (-122.0); JNum 1000];
         JArr [JNum 91.0; JNum 0];
         JArr [JNum 10; JNum 20];
         JArr [JNum (-33); JNum 151; JNum 12] ].

Definition services : Services Z :=
  mkServices Z
    (λ hour t, (if (hour =? 1)%nat then Some payload else None, t))
    (λ lat lon t,
       (if PrimFloat.leb 0 lat then Some "Somewhere"%string else None, t))
    (λ name lat lon t,
       (Some (Unsplash.mk "https://images.example/1"
                "Photo by A on Unsplash"), t))
    (λ t, (t, (t + 1000)%Z))
    (λ v, match v with JStr s => s | _ => ""%string end).

Definition world : World Z :=
  mkWorld 1700000000000%Z (Cache.mkFs Cache.Missing true) (λ _, Byte.x2a).

(** An entry of the cache, stamped at the world's initial time. *)
Definition entry : Cache.CachedPhoto :=
  Cache.mkCached (JStr "7") "https://images.example/7"
    "Photo by B on Unsplash" "Elsewhere" 1700000000000%Z.

(** The same world a few seconds later, with that entry on file. *)
Definition cachedWorld : World Z :=
  mkWorld 1700000005000%Z
    (Cache.mkFs (Cache.Document {["7" := entry]}) true) (λ _, Byte.x2a).

(** Services whose geocoder knows every place. *)
Definition generous : Services Z :=
  mkServices Z
    (feed services)
    (λ lat lon t, (Some "Somewhere"%string, t))
    (fetchUnsplashPhoto services)
    (Date_now services)
    (String_of services).

(** The rounds of a game of two in that world. *)
Definition rounds : list Game.GameRound :=
  Eval vm_compute in
    match (Game.createGameRound services 2 world).1 with
    | inr rounds => rounds
    | inl _ => []
    end.

(** An engine of which four values are known, the ones of
    [Float64.nearest_at_sample]; whatever else it is asked, it answers
    [NaN]. *)
Definition engine : Float64.Engine :=
  Float64.mkEngine
    (λ x, if x =? 0x1.86f4291ecf2f4p+0 then 0x1.ff833f9da45f7p-1
          else if x =? 0x1.921fb54442d18p+0 then 1
          else nan)
    (λ x, if abs x =? 0x1.86f4291ecf2f4p+0 then 0x1.65547c4694e12p-5
          else nan)
    (λ _ _, nan)
    (λ _, nan).

End Demo.

(** * Properties *)

(** ** Feed extraction *)

Section FeedFacts.
#[local] Open Scope float_scope.

(** An array entry whose first two elements are numbers is kept exactly when
    they are within bounds, with its own coordinates. *)
Lemma extractCoordinates_array (la lo : float) (rest : list jsvalue)
    (id : string) :
  extractCoordinates (JArr (JNum la :: JNum lo :: rest)) id =
    if in_bounds la lo
    then Some (mkBalloon (JStr id) la lo
                 (if typeof_number (at_index rest 0) then at_index rest 0
                  else JUndefined))
    else None.
Proof.
  unfold extractCoordinates, fromArray, fromObject; cbn.
  destruct (in_bounds la lo); reflexivity.
Qed.

(** An object entry spelled [lat]/[lon] with truthy numbers is kept exactly
    when they are within bounds. *)
Lemma extractCoordinates_object_truthy (la lo : float) (id : string) :
  truthy (JNum la) = true → truthy (JNum lo) = true →
  extractCoordinates (JObj [("lat", JNum la); ("lon", JNum lo)]) id =
    if in_bounds la lo then Some (mkBalloon (JStr id) la lo JUndefined)
    else None.
Proof.
  intros Hla Hlo.
  cbn in Hla, Hlo.
  unfold extractCoordinates, fromArray, fromObject, JS.or; cbn.
  repeat (rewrite ?Hla, ?Hlo; cbn).
  destruct (in_bounds la lo); reflexivity.
Qed.

Example extract_array_example :
  extractCoordinates (JArr [JNum 45.0; JNum (-122.0); JNum 1000]) "0"
  = Some (mkBalloon (JStr "0") 45.0 (-122.0) (JNum 1000)).
Proof. vm_compute. reflexivity. Qed.

Example extract_invalid_latitude_example :
  extractCoordinates (JArr [JNum 91.0; JNum 0]) "0" = None.
Proof. vm_compute. reflexivity. Qed.

Example extract_object_example :
  extractCoordinates
    (JObj [("latitude", JNum 10); ("longitude", JNum 20)]) "0"
  = Some (mkBalloon (JStr "0") 10 20 JUndefined).
Proof. vm_compute. reflexivity. Qed.

(** Only the last spelling of each chain lets a zero through. *)
Example extract_object_last_spelling_zero :
  extractCoordinates
    (JObj [("Latitude", JNum 0); ("Longitude", JNum 0)]) "0"
  = Some (mkBalloon (JStr "0") 0 0 JUndefined).
Proof. vm_compute. reflexivity. Qed.

(** C1.  An object entry on the equator, [{"lat": 0, "lon": 20}], has a
    numeric latitude in [-90, 90] and a numeric longitude in [-180, 180],
    and yet yields no observation: [0] is falsy, so the chain of spellings
    runs past it.  The same coordinates as an array, [[0, 20]], yield the
    observation. *)
Theorem extractCoordinates_object_zero_dropped (id : string) :
  in_bounds 0 20 = true
  ∧ extractCoordinates (JObj [("lat", JNum 0); ("lon", JNum 20)]) id = None
  ∧ extractCoordinates (JArr [JNum 0; JNum 20]) id
    = Some (mkBalloon (JStr id) 0 20 JUndefined).
Proof. split; [|split]; vm_compute; reflexivity. Qed.

End FeedFacts.

(** ** Secure shuffle *)

Section ShuffleFacts.
Import Shuffle.
#[local] Open Scope Z_scope.

Lemma byte_value_range (b : Byte.byte) : 0 ≤ byte_value b < 256.
Proof.
  unfold byte_value. pose proof (Byte.to_N_bounded b) as H. lia.
Qed.

(** Big-endian accumulation of [n] bytes stays below [256^n]. *)
Lemma randomValue_range (bytes : list Byte.byte) (acc : Z) :
  0 ≤ acc →
  0 ≤ foldl (λ v b, v * 256 + byte_value b) acc bytes
    < (acc + 1) * 256 ^ Z.of_nat (length bytes).
Proof.
  revert acc. induction bytes as [|b bytes IH]; intros acc Hacc.
  - cbn. lia.
  - cbn [foldl length].
    pose proof (byte_value_range b) as Hb.
    specialize (IH (acc * 256 + byte_value b) ltac:(lia)).
    rewrite Nat2Z.inj_succ, Z.pow_succ_r by lia.
    assert (0 < 256 ^ Z.of_nat (length bytes)) by (apply Z.pow_pos_nonneg; lia).
    nia.
Qed.

Lemma bytesNeeded_nonneg (range : Z) : 0 ≤ bytesNeeded range.
Proof.
  unfold bytesNeeded. pose proof (Z.log2_up_nonneg range).
  apply Z.div_pos; lia.
Qed.

(** The width covers the range: [range <= 256 ^ bytesNeeded range]. *)
Lemma bytesNeeded_covers (range : Z) :
  1 ≤ range → range ≤ 256 ^ bytesNeeded range.
Proof.
  intros Hr. unfold bytesNeeded.
  destruct (Z.eq_dec range 1) as [->|Hne]; [vm_compute; discriminate|].
  pose proof (Z.log2_up_spec range ltac:(lia)) as [_ Hup].
  pose proof (Z.log2_up_nonneg range) as Hnn.
  set (l := Z.log2_up range) in *.
  replace 256 with (2 ^ 8) by reflexivity.
  rewrite <- Z.pow_mul_r by (try apply Z.div_pos; lia).
  etrans; [exact Hup|].
  apply Z.pow_le_mono_r; [lia|].
  pose proof (Z.mul_div_le (l + 7) 8 ltac:(lia)).
  pose proof (Z.mod_pos_bound (l + 7) 8 ltac:(lia)).
  pose proof (Z.div_mod (l + 7) 8 ltac:(lia)). lia.
Qed.

(** [secureRandomInt(max)] lands in [[0, max)], whatever the bytes drawn. *)
Lemma secureRandomInt_range (max : Z) (e : Entropy) :
  1 ≤ max → 0 ≤ (secureRandomInt max e).1 < max.
Proof.
  intros Hmax. unfold secureRandomInt, randomBytes. cbn [fst].
  set (k := bytesNeeded max).
  set (bytes := map e (seq 0 (Z.to_nat k))).
  pose proof (bytesNeeded_nonneg max) as Hk. fold k in Hk.
  pose proof (randomValue_range bytes 0 ltac:(lia)) as Hv.
  assert (Hlen : Z.of_nat (length bytes) = k).
  { unfold bytes. rewrite length_map, length_seq. lia. }
  rewrite Hlen in Hv.
  set (v := foldl _ 0 bytes) in *.
  assert (0 < 256 ^ k) by (apply Z.pow_pos_nonneg; lia).
  split.
  - apply Z.div_pos; nia.
  - apply Z.div_lt_upper_bound; nia.
Qed.

Context {T : Type} (undefined : T).

Lemma array_set_in_range (a : list T) (i : nat) (v : T) :
  (i < length a)%nat → array_set undefined a i v = <[i:=v]> a.
Proof. intros Hi. unfold array_set. by rewrite decide_True. Qed.

(** Overwriting position [j], which held [y], with [h], and putting [y] in
    front, rearranges [h :: t]. *)
Lemma insert_head_permutation (t : list T) (j : nat) (y h : T) :
  t !! j = Some y → y :: <[j:=h]> t ≡ₚ h :: t.
Proof.
  revert j. induction t as [|z t IH]; intros [|j] Hj; try discriminate.
  - cbn in Hj. injection Hj as ->. cbn. apply perm_swap.
  - cbn in Hj. cbn [insert list_insert].
    rewrite (perm_swap z y), (IH j Hj). apply perm_swap.
Qed.

(** A swap of two cells of the array rearranges it. *)
Lemma swap_permutation (a : list T) (i j : nat) :
  (i < length a)%nat → (j < length a)%nat → swap undefined a i j ≡ₚ a.
Proof.
  intros Hi Hj. unfold swap, array_get.
  rewrite (array_set_in_range a i) by done.
  rewrite array_set_in_range by (by rewrite length_insert).
  destruct (lookup_lt_is_Some_2 a i Hi) as [y Hy].
  destruct (lookup_lt_is_Some_2 a j Hj) as [x Hx].
  rewrite Hy, Hx. cbn [default].
  clear Hi Hj. revert i j Hy Hx.
  induction a as [|h a IH]; intros [|i] [|j] Hy Hx; try discriminate;
    cbn in Hy, Hx; cbn [insert list_insert].
  - by simplify_eq.
  - injection Hy as ->. by apply insert_head_permutation.
  - injection Hx as ->. by apply insert_head_permutation.
  - constructor. by apply IH.
Qed.

Lemma shuffleFrom_permutation (i : nat) (a : list T) (e : Entropy) :
  (i < length a)%nat → (shuffleFrom undefined i a e).1 ≡ₚ a.
Proof.
  revert a e. induction i as [|i IH]; intros a e Hi; [done|].
  cbn [shuffleFrom].
  pose proof (secureRandomInt_range (Z.of_nat (S i) + 1) e ltac:(lia)) as Hj.
  destruct (secureRandomInt (Z.of_nat (S i) + 1) e) as [j e'].
  cbn [fst] in Hj.
  assert (Hswap : swap undefined a (S i) (Z.to_nat j) ≡ₚ a)
    by (apply swap_permutation; lia).
  rewrite IH; [done|].
  rewrite (Permutation_length Hswap). lia.
Qed.

Lemma shuffleArray_rearranges (array : list T) (e : Entropy) :
  (shuffleArray undefined array e).1 ≡ₚ array.
Proof.
  unfold shuffleArray. destruct array as [|x array]; [done|].
  apply shuffleFrom_permutation. cbn. lia.
Qed.

End ShuffleFacts.

(** C4.  For every input sequence and every entropy, [shuffleArray] returns a
    permutation of its input, of the same length; the empty and the
    one-element sequences come back as they are; and every index drawn by
    [secureRandomInt(i + 1)], for [i >= 1], lies in [[0, i]]. *)
Theorem shuffleArray_permutation {T : Type} (undefined : T) (array : list T)
    (e : Shuffle.Entropy) :
  (Shuffle.shuffleArray undefined array e).1 ≡ₚ array
  ∧ length (Shuffle.shuffleArray undefined array e).1 = length array
  ∧ (Shuffle.shuffleArray undefined [] e).1 = []
  ∧ (∀ x : T, (Shuffle.shuffleArray undefined [x] e).1 = [x])
  ∧ (∀ (i : nat) (e' : Shuffle.Entropy),
       (0 ≤ (Shuffle.secureRandomInt (Z.of_nat (S i) + 1) e').1
          ≤ Z.of_nat (S i))%Z).
Proof.
  pose proof (shuffleArray_rearranges undefined array e) as Hperm.
  split; [exact Hperm|]. split; [exact (Permutation_length Hperm)|].
  split; [reflexivity|]. split; [reflexivity|].
  intros i e'.
  pose proof (secureRandomInt_range (Z.of_nat (S i) + 1) e' ltac:(lia)). lia.
Qed.

(** ** Round assembly *)

Section GameFacts.
Import Host Game.
Context {Env : Type} (svc : Services Env).

(** Both ways out of [getPhotoForLocation] with a photo echo the
    coordinates asked for and a zero distance. *)
Lemma getPhotoForLocation_located (balloonId : jsvalue) (la lo : float)
    (w : World Env) (p : Located.Photo) :
  (getPhotoForLocation svc balloonId la lo w).1 = Some p →
  Located.lat p = la ∧ Located.lon p = lo ∧ Located.distance p = 0%float.
Proof.
  unfold getPhotoForLocation, isCacheValid, loadCache, saveCache,
    bind, ret, call.
  intros H. repeat case_match; simplify_eq/=; done.
Qed.

Lemma makeRound_on_balloon (b : BalloonData) (w : World Env)
    (p : Located.Photo) :
  (getPhotoForLocation svc (id b) (lat b) (lon b) w).1 = Some p →
  on_balloon (makeRound b p).
Proof.
  intros H. apply getPhotoForLocation_located in H as (Hla & Hlo & Hd).
  unfold on_balloon, makeRound. cbn. rewrite Hla, Hlo, Hd. done.
Qed.

Lemma resolveAll_on_balloon (balloons : list BalloonData) (w : World Env) :
  Forall on_balloon (resolveAll svc balloons w).1.
Proof.
  revert w. induction balloons as [|b rest IH]; intros w; [constructor|].
  cbn [resolveAll]. unfold bind, ret.
  destruct (getPhotoForLocation svc _ _ _ w) as [photo w1] eqn:E.
  specialize (IH w1). destruct (resolveAll svc rest w1) as [rounds w2].
  cbn [fst] in *. destruct photo as [p|]; [|done].
  constructor; [|done]. apply (makeRound_on_balloon b w). by rewrite E.
Qed.

(** The loop stops as soon as [numRounds] rounds are there: it returns the
    rounds it started with, followed by the first survivors. *)
Lemma collect_resolveAll (numRounds : Z) (selected : list BalloonData)
    (rounds : list GameRound) (w : World Env) :
  (collect svc numRounds selected rounds w).1 =
    rounds ++ take (Z.to_nat (numRounds - Z.of_nat (length rounds)))
                   (resolveAll svc selected w).1.
Proof.
  revert rounds w.
  induction selected as [|b rest IH]; intros rounds w.
  - cbn. by rewrite take_nil, app_nil_r.
  - cbn [collect resolveAll]. unfold bind, ret.
    destruct (Z.ltb_spec (Z.of_nat (length rounds)) numRounds) as [Hlt|Hge].
    + destruct (getPhotoForLocation svc _ _ _ w) as [photo w1].
      destruct photo as [p|].
      * rewrite IH, length_app. cbn [length].
        destruct (resolveAll svc rest w1) as [more w2]. cbn [fst].
        replace (Z.to_nat (numRounds - Z.of_nat (length rounds)))
          with (S (Z.to_nat (numRounds - Z.of_nat (length rounds + 1))))
          by lia.
        cbn [take]. by rewrite <- app_assoc.
      * rewrite IH. by destruct (resolveAll svc rest w1).
    + replace (Z.to_nat (numRounds - Z.of_nat (length rounds))) with O by lia.
      cbn. by rewrite app_nil_r.
Qed.

Lemma slice_to_take {T : Type} (a : list T) (k : Z) :
  (0 ≤ k)%Z → slice_to a (Z.min k (Z.of_nat (length a))) = take (Z.to_nat k) a.
Proof.
  intros Hk. unfold slice_to.
  destruct (Z.ltb_spec (Z.min k (Z.of_nat (length a))) 0) as [?|_]; [lia|].
  set (len := Z.of_nat (length a)).
  replace (Z.min (Z.min k len) len) with (Z.min k len) by lia.
  destruct (Z.le_ge_cases k len) as [Hle|Hge].
  - by rewrite Z.min_l by lia.
  - rewrite Z.min_r by lia. rewrite !take_ge; [done|lia..].
Qed.

(** Every round of a successful assembly was made by [makeRound] from a
    photo that [getPhotoForLocation] answered. *)
Lemma createGameRound_on_balloon (numRounds : Z) (w : World Env)
    (rounds : list GameRound) :
  (createGameRound svc numRounds w).1 = inr rounds →
  Forall on_balloon rounds.
Proof.
  unfold createGameRound, bind, ret.
  destruct (fetchBalloonData svc w) as [balloons w1].
  destruct (length balloons =? 0)%nat; [discriminate|].
  destruct (shuffleBalloons balloons w1) as [shuffled w2].
  pose proof (collect_resolveAll numRounds
                (slice_to shuffled
                   (Z.min (numRounds * 3) (Z.of_nat (length shuffled))))
                [] w2) as Hc.
  destruct (collect svc _ _ _ w2) as [collected w3]. cbn [fst] in Hc.
  destruct (length collected =? 0)%nat; [discriminate|].
  cbn. intros [= <-]. rewrite Hc. cbn [app].
  apply Forall_take, resolveAll_on_balloon.
Qed.

(** C3.  [createGameRound(numRounds)], for a number of rounds that is not
    negative: the shuffled balloons are a rearrangement of the feed's, the
    over-sample is its first [3 * numRounds] balloons, and
    - the outcome is the "no data" error exactly when the feed yields no
      observation;
    - given observations, it is the "no photos" error exactly when no round
      survives the resolution of the over-sample;
    - a successful outcome is the first [numRounds] survivors, hence
      between 1 and [numRounds] rounds;
    - the two errors are distinct, and so are their messages. *)
Theorem createGameRound_outcome (numRounds : Z) (w : World Env) :
  (0 ≤ numRounds)%Z →
  let '(balloons, w1) := fetchBalloonData svc w in
  let '(shuffled, w2) := shuffleBalloons balloons w1 in
  let selected :=
    slice_to shuffled (Z.min (numRounds * 3) (Z.of_nat (length shuffled))) in
  let survivors := (resolveAll svc selected w2).1 in
  let outcome := (createGameRound svc numRounds w).1 in
  shuffled ≡ₚ balloons
  ∧ selected = take (Z.to_nat (numRounds * 3)) shuffled
  ∧ (outcome = inl NoBalloonData ↔ balloons = [])
  ∧ (balloons ≠ [] → (outcome = inl NoPhotos ↔ survivors = []))
  ∧ (∀ rounds, outcome = inr rounds →
       rounds = take (Z.to_nat numRounds) survivors
       ∧ (1 ≤ Z.of_nat (length rounds) ≤ numRounds)%Z)
  ∧ NoBalloonData ≠ NoPhotos
  ∧ message NoBalloonData ≠ message NoPhotos.
Proof.
  intros Hn. unfold createGameRound, bind, ret.
  destruct (fetchBalloonData svc w) as [balloons w1].
  assert (Hperm : (shuffleBalloons balloons w1).1 ≡ₚ balloons).
  { unfold shuffleBalloons.
    pose proof (shuffleArray_rearranges undefinedBalloon balloons
                  (entropy w1)) as Hp.
    by destruct (Shuffle.shuffleArray _ balloons _) as [sh e']. }
  destruct balloons as [|b balloons]; cbn [length Nat.eqb]; cbv beta.
  { destruct (shuffleBalloons [] w1) as [shuffled w2].
    rewrite slice_to_take by lia. cbn.
    split; [done|]. split; [done|]. split; [done|]. split; [done|].
    split; [intros rounds [=]|]. split; done. }
  destruct (shuffleBalloons (b :: balloons) w1) as [shuffled w2].
  cbn [fst] in Hperm.
  rewrite slice_to_take by lia.
  set (selected := take (Z.to_nat (numRounds * 3)) shuffled).
  pose proof (collect_resolveAll numRounds selected [] w2) as Hc.
  cbn [app length] in Hc. rewrite Z.sub_0_r in Hc.
  cbv zeta.
  destruct (collect svc numRounds selected [] w2) as [collected w3].
  cbn [fst] in Hc.
  set (survivors := (resolveAll svc selected w2).1) in *.
  assert (Hempty : collected = [] ↔ survivors = []).
  { rewrite Hc. split; [|by intros ->; rewrite take_nil].
    destruct (Z.eq_dec numRounds 0%Z) as [->|Hnz].
    - intros _. subst survivors selected. by cbn.
    - destruct survivors; [done|].
      replace (Z.to_nat numRounds) with (S (Z.to_nat (numRounds - 1))) by lia.
      by cbn. }
  split; [done|]. split; [done|].
  destruct collected as [|r collected]; cbn [length Nat.eqb fst].
  - split; [split; [discriminate|done]|].
    split; [intros _; split; [intros _; by apply Hempty|done]|].
    split; [intros rounds [=]|]. split; done.
  - split; [split; [discriminate|done]|].
    split; [intros _; split; [discriminate|intros Hs; by apply Hempty in Hs]|].
    split; [|split; done].
    intros rounds [= <-]. split; [done|].
    assert (length (r :: collected) ≤ Z.to_nat numRounds)%nat
      by (rewrite Hc, length_take; lia).
    cbn [length] in *. lia.
Qed.

(** A negative number of rounds: the loop is never entered. *)
Lemma createGameRound_negative (numRounds : Z) (w : World Env) :
  (numRounds < 0)%Z →
  (createGameRound svc numRounds w).1 = inl NoBalloonData
  ∨ (createGameRound svc numRounds w).1 = inl NoPhotos.
Proof.
  intros Hn. unfold createGameRound, bind, ret.
  destruct (fetchBalloonData svc w) as [balloons w1].
  destruct (length balloons =? 0)%nat; [by left|]. right.
  destruct (shuffleBalloons balloons w1) as [shuffled w2].
  pose proof (collect_resolveAll numRounds
                (slice_to shuffled
                   (Z.min (numRounds * 3) (Z.of_nat (length shuffled))))
                [] w2) as Hc.
  destruct (collect svc _ _ _ w2) as [collected w3]. cbn [fst app length] in Hc.
  replace (Z.to_nat (numRounds - Z.of_nat 0)) with O in Hc by lia.
  rewrite take_0 in Hc. by subst collected.
Qed.

(** C6.  Every round of a successful [createGameRound] has [distanceKm]
    equal to 0. *)
Theorem createGameRound_distance_zero (numRounds : Z) (w : World Env)
    (rounds : list GameRound) :
  (createGameRound svc numRounds w).1 = inr rounds →
  Forall (λ r, distanceKm r = 0%float) rounds.
Proof.
  intros H. apply createGameRound_on_balloon in H.
  eapply Forall_impl; [exact H|]. by intros r (_ & _ & ?).
Qed.

(** C9.  In every round of a successful [createGameRound] the photo
    coordinates are the balloon's own. *)
Theorem createGameRound_photo_on_balloon (numRounds : Z) (w : World Env)
    (rounds : list GameRound) :
  (createGameRound svc numRounds w).1 = inr rounds →
  Forall (λ r, photoLat r = balloonLat r ∧ photoLon r = balloonLon r) rounds.
Proof.
  intros H. apply createGameRound_on_balloon in H.
  eapply Forall_impl; [exact H|]. by intros r (? & ? & _).
Qed.

(** A fresh entry answers the lookup by itself: no service is called and the
    file is left as it is.  An expired one does not. *)
Lemma getPhotoForLocation_hit (balloonId : jsvalue) (la lo : float)
    (w : World Env) (c : Cache.CachedPhoto) :
  (loadCache w).1 !! String_of svc balloonId = Some c →
  (isCacheValid svc c w).1 = true →
  (getPhotoForLocation svc balloonId la lo w).1
  = Some (Located.mk (Cache.photoUrl c) (Cache.photoAttribution c)
            (Cache.locationName c) la lo 0%float)
  ∧ fs (getPhotoForLocation svc balloonId la lo w).2 = fs w.
Proof.
  unfold getPhotoForLocation, isCacheValid, loadCache, Cache.read,
    bind, ret, call.
  cbn [fst]. intros -> Hvalid.
  destruct (Date_now svc (env w)) as [now e1]. cbn [fst snd env] in *.
  rewrite Hvalid.
  by destruct (Date_now svc e1) as [now' e2].
Qed.

(** C7.  The entry of a balloon whose id reads ["__proto__"] is never
    stored.  When the document has no own property of that name, a lookup for
    such a balloon, whether or not it finds a photo, leaves the document as it
    was, and what the cache reads under the id afterwards is the member
    inherited from [Object.prototype], not an entry: nothing written under
    that id can be read back. *)
Theorem cache_proto_entry_lost (balloonId : jsvalue) (la lo : float)
    (w : World Env) :
  String_of svc balloonId = "__proto__" →
  (loadCache w).1 !! "__proto__" = None →
  (∀ entry, Cache.write (loadCache w).1 "__proto__" entry = (loadCache w).1)
  ∧ (loadCache (getPhotoForLocation svc balloonId la lo w).2).1
    = (loadCache w).1
  ∧ Cache.read (loadCache (getPhotoForLocation svc balloonId la lo w).2).1
      (String_of svc balloonId) = Cache.Inherited.
Proof.
  intros Hid Hnone.
  assert (Hwrite : ∀ entry,
    Cache.write (loadCache w).1 "__proto__" entry = (loadCache w).1).
  { intros entry. unfold Cache.write. rewrite Hnone.
    by rewrite !bool_decide_eq_true_2. }
  assert (Hsame : (loadCache (getPhotoForLocation svc balloonId la lo w).2).1
                  = (loadCache w).1).
  { revert Hwrite Hnone.
    unfold getPhotoForLocation, isCacheValid, loadCache, saveCache,
      bind, ret, call.
    cbn [fst snd env fs entropy]. rewrite Hid. intros Hwrite Hnone.
    repeat case_match; simplify_eq/=; rewrite ?Hwrite; congruence. }
  split; [exact Hwrite|]. split; [exact Hsame|].
  rewrite Hsame, Hid. unfold Cache.read. rewrite Hnone. reflexivity.
Qed.

End GameFacts.

Example demo_game :
  (Game.createGameRound Demo.services 2 Demo.world).1 = inr Demo.rounds
  ∧ length Demo.rounds = 2%nat.
Proof. split; vm_compute; reflexivity. Qed.

Lemma createGameRound_outcome_witness :
  (0 ≤ 2)%Z
  ∧ let '(balloons, w1) := Game.fetchBalloonData Demo.services Demo.world in
    let '(shuffled, w2) := Game.shuffleBalloons balloons w1 in
    let selected :=
      Game.slice_to shuffled (Z.min (2 * 3) (Z.of_nat (length shuffled))) in
    let survivors := (Game.resolveAll Demo.services selected w2).1 in
    let outcome := (Game.createGameRound Demo.services 2 Demo.world).1 in
    shuffled ≡ₚ balloons
    ∧ selected = take (Z.to_nat (2 * 3)) shuffled
    ∧ (outcome = inl Game.NoBalloonData ↔ balloons = [])
    ∧ (balloons ≠ [] → (outcome = inl Game.NoPhotos ↔ survivors = []))
    ∧ (∀ rounds, outcome = inr rounds →
         rounds = take (Z.to_nat 2) survivors
         ∧ (1 ≤ Z.of_nat (length rounds) ≤ 2)%Z)
    ∧ Game.NoBalloonData ≠ Game.NoPhotos
    ∧ Game.message Game.NoBalloonData ≠ Game.message Game.NoPhotos.
Proof.
  assert (H : (0 ≤ 2)%Z) by lia.
  split; [exact H|].
  exact (createGameRound_outcome Demo.services 2 Demo.world H).
Defined.

Lemma createGameRound_distance_zero_witness :
  (Game.createGameRound Demo.services 2 Demo.world).1 = inr Demo.rounds
  ∧ Forall (λ r, Game.distanceKm r = 0%float) Demo.rounds.
Proof.
  assert (H : (Game.createGameRound Demo.services 2 Demo.world).1
              = inr Demo.rounds) by (vm_compute; reflexivity).
  split; [exact H|].
  exact (createGameRound_distance_zero Demo.services 2 Demo.world _ H).
Defined.

Lemma createGameRound_photo_on_balloon_witness :
  (Game.createGameRound Demo.services 2 Demo.world).1 = inr Demo.rounds
  ∧ Forall (λ r, Game.photoLat r = Game.balloonLat r
                 ∧ Game.photoLon r = Game.balloonLon r) Demo.rounds.
Proof.
  assert (H : (Game.createGameRound Demo.services 2 Demo.world).1
              = inr Demo.rounds) by (vm_compute; reflexivity).
  split; [exact H|].
  exact (createGameRound_photo_on_balloon Demo.services 2 Demo.world _ H).
Defined.

Lemma cache_proto_entry_lost_witness :
  let lookup :=
    Game.getPhotoForLocation Demo.services (JStr "__proto__") 45%float
      (-122)%float Demo.world in
  lookup.1
  = Some (Located.mk "https://images.example/1" "Photo by A on Unsplash"
            "Somewhere" 45%float (-122)%float 0%float)
  ∧ (∀ entry,
       Cache.write (Game.loadCache Demo.world).1 "__proto__" entry
       = (Game.loadCache Demo.world).1)
  ∧ (Game.loadCache lookup.2).1 = (Game.loadCache Demo.world).1
  ∧ Cache.read (Game.loadCache lookup.2).1
      (Host.String_of Demo.services (JStr "__proto__")) = Cache.Inherited.
Proof.
  cbv zeta. split; [vm_compute; reflexivity|].
  apply (cache_proto_entry_lost Demo.services (JStr "__proto__") 45%float
           (-122)%float Demo.world); reflexivity.
Defined.

Example entry_fresh_just_below_a_day :
  (Game.isCacheValid Demo.services Demo.entry
     (Host.mkWorld (1700000000000 + 86399999)%Z
        (Cache.mkFs Cache.Missing true) (λ _, Byte.x00))).1 = true.
Proof. reflexivity. Qed.

Example entry_expired_at_a_day :
  (Game.isCacheValid Demo.services Demo.entry
     (Host.mkWorld (1700000000000 + 86400000)%Z
        (Cache.mkFs Cache.Missing true) (λ _, Byte.x00))).1 = false.
Proof. reflexivity. Qed.

(** ** The guess route *)

Section RouteFacts.
Import Route.
Variable calculateScore : jsvalue → jsvalue → jsvalue → jsvalue → jsvalue.
Variable getWeatherData : jsvalue → jsvalue → option jsvalue.

Lemma assoc_absent (k : string) (props : list (string * jsvalue)) :
  k ∉ props.*1 → assoc k props = JUndefined.
Proof.
  induction props as [|[k' v] props IH]; [done|].
  cbn. intros Hk. apply not_elem_of_cons in Hk as [Hne Hk].
  destruct (String.eqb_spec k k'); [done|]. by apply IH.
Qed.

(** The guard of the handler is the falsiness of one of the four fields. *)
Lemma guess_guard (props : list (string * jsvalue)) :
  guess calculateScore getWeatherData (JObj props) = missingCoordinates
  ↔ truthy (assoc "actualLat" props) && truthy (assoc "actualLon" props)
    && truthy (assoc "guessLat" props) && truthy (assoc "guessLon" props)
    = false.
Proof.
  unfold guess, get.
  destruct (truthy (assoc "actualLat" props)),
    (truthy (assoc "actualLon" props)),
    (truthy (assoc "guessLat" props)),
    (truthy (assoc "guessLon" props)); cbn; try done.
  destruct (getWeatherData _ _); split; discriminate.
Qed.

(** C10.  When one of [actualLat], [actualLon], [guessLat], [guessLon] is
    absent from the request body or is the number 0 (of either sign), the
    handler answers 400 "Missing required coordinates" and computes no
    score. *)
Theorem guess_rejects_absent_or_zero (props : list (string * jsvalue))
    (k : string) :
  k ∈ ["actualLat"; "actualLon"; "guessLat"; "guessLon"] →
  k ∉ props.*1
  ∨ (∃ x : float, assoc k props = JNum x ∧ PrimFloat.eqb x 0%float = true) →
  guess calculateScore getWeatherData (JObj props)
  = mkResponse 400 (JObj [("error", JStr "Missing required coordinates")]).
Proof.
  intros Hk Hv.
  assert (Hfalsy : truthy (assoc k props) = false).
  { destruct Hv as [Habs|(x & Hx & Hzero)].
    - by rewrite (assoc_absent _ _ Habs).
    - rewrite Hx. cbn. by rewrite Hzero. }
  change (mkResponse 400 _) with missingCoordinates.
  apply guess_guard.
  repeat (apply elem_of_cons in Hk as [->|Hk];
          [rewrite Hfalsy; cbn; by rewrite ?andb_false_r|]).
  by apply elem_of_nil in Hk.
Qed.

End RouteFacts.

(** A guess whose actual position lies on the equator is turned away. *)
Lemma guess_rejects_absent_or_zero_witness :
  let props :=
    [("actualLat", JNum 0%float); ("actualLon", JNum 20%float);
     ("guessLat", JNum 1%float); ("guessLon", JNum 21%float)] in
  assoc "actualLat" props = JNum 0%float
  ∧ Route.guess (λ _ _ _ _, JNum 5000%float) (λ _ _, Some JNull) (JObj props)
    = Route.mkResponse 400
        (JObj [("error", JStr "Missing required coordinates")]).
Proof.
  cbv zeta. split; [reflexivity|].
  apply (guess_rejects_absent_or_zero _ _ _ "actualLat").
  - apply list_elem_of_here.
  - right. exists 0%float. split; reflexivity.
Defined.

(** On the prime meridian too; away from both, the guess is scored. *)
Example guess_prime_meridian :
  Route.status
    (Route.guess (λ _ _ _ _, JNum 5000%float) (λ _ _, Some JNull)
       (JObj [("actualLat", JNum 51.5%float); ("actualLon", JNum 20%float);
              ("guessLat", JNum 51.5%float); ("guessLon", JNum 0%float)]))
  = 400%Z
  ∧ Route.status
      (Route.guess (λ _ _ _ _, JNum 5000%float) (λ _ _, Some JNull)
         (JObj [("actualLat", JNum 51.5%float); ("actualLon", JNum 20%float);
                ("guessLat", JNum 51.5%float); ("guessLon", JNum 1%float)]))
    = 200%Z.
Proof. split; vm_compute; reflexivity. Qed.

(** ** Distance and score *)

Section ScoringFacts.
Import Scoring.
#[local] Open Scope R_scope.

Lemma PI_bounds : 3.1415 < PI < 3.1421.
Proof.
  pose proof (PI_2_3_7_ineq 1) as [Hlo Hhi].
  unfold sum_f_R0, tg_alt, PI_2_3_7_tg, Ratan_seq in Hlo, Hhi.
  simpl in Hlo, Hhi.
  lra.
Qed.

(** [Math.round] is the floor of [x + 1/2]. *)
Lemma Math_round_floor (x : R) :
  exists n : Z, Math_round x = IZR n /\ IZR n <= x + / 2 < IZR n + 1.
Proof.
  unfold Math_round, Int_part. exists (up (x + / 2) - 1)%Z.
  destruct (archimed (x + / 2)) as [Hgt Hle].
  rewrite minus_IZR. split; [reflexivity|]. lra.
Qed.

Lemma Math_round_monotone (x y : R) : x <= y -> Math_round x <= Math_round y.
Proof.
  intros Hxy.
  destruct (Math_round_floor x) as (n & -> & Hn).
  destruct (Math_round_floor y) as (m & -> & Hm).
  apply IZR_le.
  destruct (Z_lt_le_dec m n) as [Hlt|]; [|assumption].
  exfalso. assert (m + 1 <= n)%Z as Hmn by lia.
  apply IZR_le in Hmn. rewrite plus_IZR in Hmn. lra.
Qed.

(** The decaying branch of the score, as a function of the distance. *)
Lemma decay_range (d : R) :
  500 < d -> 0 < 5000 * exp (- (d - 500) / 2500) < 5000.
Proof.
  intros Hd.
  assert (Hneg : - (d - 500) / 2500 < 0) by lra.
  pose proof (exp_pos (- (d - 500) / 2500)) as Hpos.
  pose proof (exp_increasing _ _ Hneg) as Hlt. rewrite exp_0 in Hlt.
  lra.
Qed.

Lemma round_range (x : R) :
  0 <= x <= 5000 -> exists n : Z, Math_round x = IZR n /\ (0 <= n <= 5000)%Z.
Proof.
  intros Hx. destruct (Math_round_floor x) as (n & Hn & Hlo & Hhi).
  exists n. split; [exact Hn|].
  split.
  - apply le_IZR. 
    destruct (Z_lt_le_dec n 0) as [Hlt|]; [|apply IZR_le; assumption].
    assert (n + 1 <= 0)%Z as H1 by lia. apply IZR_le in H1.
    rewrite plus_IZR in H1. lra.
  - destruct (Z_lt_le_dec 5000 n) as [Hlt|]; [|assumption].
    assert (5001 <= n)%Z as H1 by lia. apply IZR_le in H1. lra.
Qed.

Lemma atan2_sin_cos (θ : R) :
  0 <= θ <= PI / 2 -> atan2 (sin θ) (cos θ) = θ.
Proof.
  intros [H0 H2]. unfold atan2.
  destruct (Req_dec θ (PI / 2)) as [->|Hne].
  - rewrite cos_PI2, sin_PI2.
    destruct (Rlt_dec 0 0); [lra|]. destruct (Rlt_dec 0 1); [reflexivity|lra].
  - assert (0 < cos θ) by (apply cos_gt_0; lra).
    destruct (Rlt_dec 0 (cos θ)); [|lra].
    change (sin θ / cos θ) with (tan θ). apply atan_tan. lra.
Qed.

Lemma haversine_angle (a θ : R) :
  0 <= θ <= PI / 2 -> a = sin θ * sin θ ->
  2 * atan2 (sqrt a) (sqrt (1 - a)) = 2 * θ.
Proof.
  intros Hθ ->.
  assert (0 <= sin θ) by (apply sin_ge_0; lra).
  assert (0 <= cos θ) by (apply cos_ge_0; lra).
  rewrite sqrt_square by assumption.
  replace (1 - sin θ * sin θ) with (cos θ * cos θ)
    by (pose proof (sin2_cos2 θ) as Hs; unfold Rsqr in Hs; lra).
  rewrite sqrt_square by assumption.
  rewrite atan2_sin_cos; auto.
Qed.

Lemma calculateDistance_equator (lon1 lon2 θ : R) :
  0 <= θ <= PI / 2 ->
  sin (toRad (lon2 - lon1) / 2) * sin (toRad (lon2 - lon1) / 2)
  = sin θ * sin θ ->
  calculateDistance 0 lon1 0 lon2 = 6371 * (2 * θ).
Proof.
  intros Hθ Hs. unfold calculateDistance.
  rewrite (haversine_angle _ θ Hθ); [reflexivity|].
  rewrite <- Hs. unfold toRad.
  replace ((0 - 0) * (PI / 180) / 2) with 0 by lra.
  replace (0 * (PI / 180)) with 0 by lra.
  rewrite sin_0, cos_0. lra.
Qed.




(** The haversine term of two points. *)
Lemma calculateDistance_unfold (lat1 lon1 lat2 lon2 : R) :
  calculateDistance lat1 lon1 lat2 lon2 =
    let a :=
      sin (toRad (lat2 - lat1) / 2) * sin (toRad (lat2 - lat1) / 2) +
      cos (toRad lat1) * cos (toRad lat2) *
      sin (toRad (lon2 - lon1) / 2) * sin (toRad (lon2 - lon1) / 2) in
    6371 * (2 * atan2 (sqrt a) (sqrt (1 - a))).
Proof. reflexivity. Qed.







(** The curve of the score in exact arithmetic: within 500 km it is 5000;
    beyond, it is [round(5000 * exp(-(distance - 500) / 2500))] floored at
    0; in both cases an integer between 0 and 5000. *)
Lemma calculateScore_curve (actualLat actualLon guessLat guessLon : R) :
  let distance := calculateDistance actualLat actualLon guessLat guessLon in
  let score := calculateScore actualLat actualLon guessLat guessLon in
  (distance <= 500 -> score = 5000)
  /\ (500 < distance ->
      score = Rmax 0 (Math_round (5000 * exp (- (distance - 500) / 2500))))
  /\ (exists n : Z, score = IZR n /\ (0 <= n <= 5000)%Z).
Proof.
  cbv zeta. unfold calculateScore.
  set (distance := calculateDistance actualLat actualLon guessLat guessLon).
  destruct (Rle_dec distance 500) as [Hle|Hgt].
  - split; [reflexivity|]. split; [lra|].
    exists 5000%Z. split; [reflexivity|lia].
  - split; [lra|]. split; [reflexivity|].
    pose proof (decay_range distance ltac:(lra)) as Hrange.
    destruct (round_range (5000 * exp (- (distance - 500) / 2500))
                ltac:(lra)) as (n & Hn & Hn0 & Hn1).
    exists n. split; [|lia].
    rewrite Hn. apply Rmax_right. by apply IZR_le.
Qed.

(** C8.  Beyond 500 km, a pair of points that is further apart never scores
    more. *)
Theorem calculateScore_monotone
    (actualLat1 actualLon1 guessLat1 guessLon1 : R)
    (actualLat2 actualLon2 guessLat2 guessLon2 : R) :
  500 < calculateDistance actualLat1 actualLon1 guessLat1 guessLon1 ->
  calculateDistance actualLat1 actualLon1 guessLat1 guessLon1
    <= calculateDistance actualLat2 actualLon2 guessLat2 guessLon2 ->
  calculateScore actualLat2 actualLon2 guessLat2 guessLon2
    <= calculateScore actualLat1 actualLon1 guessLat1 guessLon1.
Proof.
  intros H1 H12. unfold calculateScore.
  set (d1 := calculateDistance actualLat1 actualLon1 guessLat1 guessLon1) in *.
  set (d2 := calculateDistance actualLat2 actualLon2 guessLat2 guessLon2) in *.
  destruct (Rle_dec d1 500); [lra|]. destruct (Rle_dec d2 500); [lra|].
  apply Rle_max_compat_l, Math_round_monotone.
  apply Rmult_le_compat_l; [lra|].
  destruct (Req_dec d1 d2) as [->|Hne]; [lra|].
  left. apply exp_increasing. lra.
Qed.

End ScoringFacts.

(** A quarter turn and a half turn along the equator: about 10007 km and
    20015 km. *)
Lemma calculateScore_monotone_witness :
  (500 < Scoring.calculateDistance 0 0 0 90
   ∧ Scoring.calculateDistance 0 0 0 90 <= Scoring.calculateDistance 0 0 0 180
   ∧ Scoring.calculateScore 0 0 0 180 <= Scoring.calculateScore 0 0 0 90)%R.
Proof.
  pose proof PI_bounds as HPI.
  assert (H90 : Scoring.calculateDistance 0 0 0 90 = (6371 * (2 * (PI / 4)))%R).
  { apply calculateDistance_equator; [lra|].
    replace (Scoring.toRad (90 - 0) / 2)%R with (PI / 4)%R
      by (unfold Scoring.toRad; field).
    reflexivity. }
  assert (H180 : Scoring.calculateDistance 0 0 0 180
                 = (6371 * (2 * (PI / 2)))%R).
  { apply calculateDistance_equator; [lra|].
    replace (Scoring.toRad (180 - 0) / 2)%R with (PI / 2)%R
      by (unfold Scoring.toRad; field).
    reflexivity. }
  assert (H1 : (500 < Scoring.calculateDistance 0 0 0 90)%R)
    by (rewrite H90; lra).
  assert (H2 : (Scoring.calculateDistance 0 0 0 90
                <= Scoring.calculateDistance 0 0 0 180)%R)
    by (rewrite H90, H180; lra).
  split; [exact H1|]. split; [exact H2|].
  exact (calculateScore_monotone 0 0 0 90 0 0 0 180 H1 H2).
Defined.

(** ** Distance and score on binary64 numbers *)

Section Float64Facts.
Import Float64.
#[local] Open Scope float_scope.

Variable m : Engine.

(** The IEEE-754 square root of a negative number is [NaN]. *)
Lemma sqrt_negative (x : float) :
  (x <? 0) = true → PrimFloat.sqrt x = nan.
Proof.
  intros H. rewrite ltb_spec in H.
  rewrite <- (SF2Prim_Prim2SF (PrimFloat.sqrt x)), sqrt_spec.
  change (Prim2SF 0) with (S754_zero false) in H.
  destruct (Prim2SF x) as [s|s| |s mx e]; cbn in H; try discriminate.
  - destruct s; [reflexivity|discriminate].
  - destruct s; [reflexivity|discriminate].
Qed.

Lemma calculateDistance_a (lat1 lon1 lat2 lon2 : float) :
  calculateDistance m lat1 lon1 lat2 lon2
  = 6371 * (2 * Math_atan2 m
                    (PrimFloat.sqrt (haversine m lat1 lon1 lat2 lon2))
                    (PrimFloat.sqrt (1 - haversine m lat1 lon1 lat2 lon2))).
Proof. reflexivity. Qed.

(** A haversine term above 1 leaves no distance. *)
Lemma calculateDistance_nan (lat1 lon1 lat2 lon2 : float) :
  nan_rules m →
  (1 - haversine m lat1 lon1 lat2 lon2 <? 0) = true →
  calculateDistance m lat1 lon1 lat2 lon2 = nan.
Proof.
  intros [Hatan2 _] Ha.
  rewrite calculateDistance_a, (sqrt_negative _ Ha), Hatan2.
  reflexivity.
Qed.

(** Without a distance there is no score. *)
Lemma calculateScore_nan (lat1 lon1 lat2 lon2 : float) :
  nan_rules m →
  calculateDistance m lat1 lon1 lat2 lon2 = nan →
  calculateScore m lat1 lon1 lat2 lon2 = nan.
Proof.
  intros [_ Hexp] Hd. unfold calculateScore. rewrite Hd.
  change (nan <=? 500) with false. cbv iota zeta.
  change (- (nan - 500) / 2500) with nan. rewrite Hexp.
  reflexivity.
Qed.

Lemma haversine_sample :
  nearest_at_sample m → haversine m (-87.5) (-179) 87.5 1 = 0x1.0000000000001p+0.
Proof.
  intros (Hs & Hc & Hc' & Hs1). unfold haversine.
  change (toRad (87.5 - -87.5) / 2) with 0x1.86f4291ecf2f4p+0.
  change (toRad (1 - -179) / 2) with 0x1.921fb54442d18p+0.
  change (toRad (-87.5)) with (-0x1.86f4291ecf2f4p+0).
  change (toRad 87.5) with 0x1.86f4291ecf2f4p+0.
  rewrite Hs, Hc, Hc', Hs1. reflexivity.
Qed.

(** C5.  The score is not always an integer between 0 and 5000: for the
    actual position (-87.5, -179) and the guess (87.5, 1), two valid and
    antipodal points, it is [NaN].  The haversine term of the two, computed
    on binary64 numbers with the sine and the cosine rounded to nearest, is
    [1.0000000000000002]; [1 - a] is negative, its square root is [NaN], and
    so are the distance and the score.  The same happens whenever [1 - a]
    is negative. *)
Theorem calculateScore_antipodes_nan :
  nan_rules m →
  nearest_at_sample m →
  haversine m (-87.5) (-179) 87.5 1 = 0x1.0000000000001p+0
  ∧ calculateDistance m (-87.5) (-179) 87.5 1 = nan
  ∧ calculateScore m (-87.5) (-179) 87.5 1 = nan
  ∧ (calculateScore m (-87.5) (-179) 87.5 1 <=? 5000) = false
  ∧ (0 <=? calculateScore m (-87.5) (-179) 87.5 1) = false
  ∧ (∀ lat1 lon1 lat2 lon2 : float,
       (1 - haversine m lat1 lon1 lat2 lon2 <? 0) = true →
       calculateDistance m lat1 lon1 lat2 lon2 = nan
       ∧ calculateScore m lat1 lon1 lat2 lon2 = nan).
Proof.
  intros Hnan Hsample.
  pose proof (haversine_sample Hsample) as Ha.
  assert (Hd : calculateDistance m (-87.5) (-179) 87.5 1 = nan).
  { apply calculateDistance_nan; [exact Hnan|]. rewrite Ha. reflexivity. }
  pose proof (calculateScore_nan _ _ _ _ Hnan Hd) as Hscore.
  split; [exact Ha|]. split; [exact Hd|]. split; [exact Hscore|].
  rewrite Hscore. split; [reflexivity|]. split; [reflexivity|].
  intros lat1 lon1 lat2 lon2 Hneg.
  pose proof (calculateDistance_nan _ _ _ _ Hnan Hneg) as Hd'.
  split; [exact Hd'|]. by apply calculateScore_nan.
Qed.

End Float64Facts.

(** With the tabulated engine: the haversine term, the distance and the
    score of the two antipodal points. *)
Lemma calculateScore_antipodes_nan_witness :
  Float64.nan_rules Demo.engine
  ∧ Float64.nearest_at_sample Demo.engine
  ∧ Float64.haversine Demo.engine (-87.5) (-179) 87.5 1
    = 0x1.0000000000001p+0%float
  ∧ Float64.calculateScore Demo.engine (-87.5) (-179) 87.5 1 = nan.
Proof.
  assert (Hnan : Float64.nan_rules Demo.engine)
    by (split; [intros y|]; reflexivity).
  assert (Hsample : Float64.nearest_at_sample Demo.engine)
    by (repeat split; vm_compute; reflexivity).
  split; [exact Hnan|]. split; [exact Hsample|].
  destruct (calculateScore_antipodes_nan Demo.engine Hnan Hsample)
    as (Ha & _ & Hscore & _).
  split; [exact Ha|exact Hscore].
Defined.

(** * Further properties *)

(** ** Feed reader *)

Section FeedMore.
Import Host Game.
#[local] Open Scope float_scope.

Lemma extractCoordinates_checked (item : jsvalue) (id : string)
    (b : BalloonData) :
  extractCoordinates item id = Some b → in_bounds (lat b) (lon b) = true.
Proof.
  unfold extractCoordinates, fromArray, fromObject.
  intros H. repeat case_match; simplify_eq/=; done.
Qed.

(** X1.  Whatever the entry, an observation that [extractCoordinates] returns
    has its latitude in [-90, 90] and its longitude in [-180, 180]. *)
Theorem extractCoordinates_in_bounds (item : jsvalue) (id : string)
    (b : BalloonData) :
  extractCoordinates item id = Some b → in_bounds (lat b) (lon b) = true.
Proof. apply extractCoordinates_checked. Qed.

(** X2.  An array entry yields an observation exactly when its first two
    elements are numbers within bounds; the observation then carries the
    positional id, those two numbers, and the third element when it is a
    number.  Nothing else in the array is read, and the object branch never
    rescues an array. *)
Theorem extractCoordinates_array_entry (xs : list jsvalue) (id : string) :
  extractCoordinates (JArr xs) id =
    match at_index xs 0, at_index xs 1 with
    | JNum la, JNum lo =>
        if in_bounds la lo
        then Some (mkBalloon (JStr id) la lo
                     (if typeof_number (at_index xs 2) then at_index xs 2
                      else JUndefined))
        else None
    | _, _ => None
    end.
Proof.
  unfold extractCoordinates, fromArray, fromObject. cbn.
  repeat case_match; simplify_eq/=; done.
Qed.

Lemma extractAll_in_bounds (data : jsvalue) :
  Forall (λ b, in_bounds (lat b) (lon b) = true) (extractAll data).
Proof.
  apply Forall_forall. intros b Hb. unfold extractAll in Hb.
  destruct data; try by apply elem_of_nil in Hb.
  - apply list_elem_of_omap in Hb as (o & Ho & ->).
    apply elem_of_lookup_imap in Ho as (i & item & Hi & _).
    by eapply extractCoordinates_checked.
  - apply list_elem_of_omap in Hb as ([key item] & _ & Ho).
    by eapply extractCoordinates_checked.
Qed.

Context {Env : Type} (svc : Services Env).

Lemma fetchFrom_in_bounds (n hour : nat) (w : World Env) :
  Forall (λ b, in_bounds (lat b) (lon b) = true) (fetchFrom svc n hour w).1.
Proof.
  revert hour w. induction n as [|n IH]; intros hour w; [constructor|].
  cbn [fetchFrom]. unfold bind, call.
  destruct (feed svc hour (env w)) as [[data|] e']; [|apply IH].
  destruct (0 <? length (extractAll data))%nat; [|apply IH].
  apply extractAll_in_bounds.
Qed.

Lemma fetchBalloonData_checked (w : World Env) :
  Forall (λ b, in_bounds (lat b) (lon b) = true) (fetchBalloonData svc w).1.
Proof. apply fetchFrom_in_bounds. Qed.

(** X3.  Every observation that [fetchBalloonData] returns, from whichever
    hour and payload shape, is within bounds. *)
Theorem fetchBalloonData_in_bounds (w : World Env) :
  Forall (λ b, in_bounds (lat b) (lon b) = true) (fetchBalloonData svc w).1.
Proof. apply fetchBalloonData_checked. Qed.

Lemma fetchFrom_first (payload : nat → option jsvalue) (n hour : nat)
    (w : World Env) :
  (∀ h e, feed svc h e = (payload h, e)) →
  fetchFrom svc n hour w =
    (default [] (head (filter (λ bs, bs ≠ []) (hourly payload <$> seq hour n))),
     w).
Proof.
  intros Hfeed. revert hour.
  induction n as [|n IH]; intros hour; [done|].
  cbn [fetchFrom seq fmap list_fmap]. unfold bind, call.
  rewrite Hfeed. unfold hourly at 1. rewrite filter_cons.
  destruct w as [e f r]. cbn [env fs entropy].
  destruct (payload hour) as [data|]; cbn [from_option].
  - destruct (extractAll data) as [|b bs] eqn:Hd; cbn [length Nat.ltb Nat.leb].
    + rewrite decide_False by (by intros []). apply IH.
    + rewrite decide_True by done. done.
  - rewrite decide_False by (by intros []). apply IH.
Qed.

(** X4.  When the feed answers the same payload for an hour whenever it is
    asked, [fetchBalloonData] returns the observations of the first hour
    among 00..23 that has a valid one, nothing when no hour has, and leaves
    the world as it found it. *)
Theorem fetchBalloonData_first_hour (payload : nat → option jsvalue)
    (w : World Env) :
  (∀ h e, feed svc h e = (payload h, e)) →
  fetchBalloonData svc w =
    (default [] (head (filter (λ bs, bs ≠ []) (hourly payload <$> seq 0 24))),
     w).
Proof. apply fetchFrom_first. Qed.

End FeedMore.

Lemma extractCoordinates_in_bounds_witness :
  extractCoordinates
    (JArr [JNum 45.0%float; JNum (-122.0)%float; JNum 1000%float]) "0"
  = Some (mkBalloon (JStr "0") 45.0%float (-122.0)%float (JNum 1000%float))
  ∧ in_bounds 45.0%float (-122.0)%float = true.
Proof.
  assert (H : extractCoordinates
                (JArr [JNum 45.0%float; JNum (-122.0)%float;
                       JNum 1000%float]) "0"
              = Some (mkBalloon (JStr "0") 45.0%float (-122.0)%float
                        (JNum 1000%float))) by (vm_compute; reflexivity).
  split; [exact H|].
  exact (extractCoordinates_in_bounds _ _ _ H).
Defined.

Lemma fetchBalloonData_first_hour_witness :
  let payload h := if (h =? 1)%nat then Some Demo.payload else None in
  (∀ h e, Host.feed Demo.services h e = (payload h, e))
  ∧ Game.fetchBalloonData Demo.services Demo.world =
      (default []
         (head (filter (λ bs, bs ≠ []) (hourly payload <$> seq 0 24))),
       Demo.world).
Proof.
  cbv zeta.
  assert (H : ∀ h e, Host.feed Demo.services h e
                     = (if (h =? 1)%nat then Some Demo.payload else None, e))
    by (intros; reflexivity).
  split; [exact H|].
  exact (fetchBalloonData_first_hour Demo.services _ Demo.world H).
Defined.

(** ** Secure shuffle *)

Section ShuffleMore.
Import Shuffle Bytes.
#[local] Open Scope Z_scope.

(** X5.  [secureRandomInt(max)], for [max >= 2], draws the least number of
    bytes whose values cover the range: with [k] bytes drawn,
    [256^(k-1) < max <= 256^k]; the entropy left is the one after those [k]
    bytes. *)
Theorem secureRandomInt_width (max : Z) (e : Entropy) :
  2 ≤ max →
  256 ^ (bytesNeeded max - 1) < max ≤ 256 ^ bytesNeeded max
  ∧ ∀ i : nat,
      (secureRandomInt max e).2 i = e (Z.to_nat (bytesNeeded max) + i)%nat.
Proof.
  intros Hmax. split; [split|].
  - unfold bytesNeeded.
    pose proof (Z.log2_up_spec max ltac:(lia)) as [Hlow _].
    pose proof (Z.log2_up_pos max ltac:(lia)) as Hpos.
    set (l := Z.log2_up max) in *.
    pose proof (Z.div_mod (l + 7) 8 ltac:(lia)).
    pose proof (Z.mod_pos_bound (l + 7) 8 ltac:(lia)).
    replace 256 with (2 ^ 8) by reflexivity.
    rewrite <- Z.pow_mul_r by lia.
    eapply Z.le_lt_trans; [|exact Hlow].
    apply Z.pow_le_mono_r; lia.
  - apply bytesNeeded_covers. lia.
  - intros i. reflexivity.
Qed.

Lemma byte_value_of (z : Z) : 0 ≤ z < 256 → byte_value (byte_of z) = z.
Proof.
  intros Hz. unfold byte_value, byte_of.
  destruct (Byte.of_N (Z.to_N z)) as [b|] eqn:Hb.
  - apply Byte.to_of_N in Hb. cbn. rewrite Hb. lia.
  - apply Byte.of_N_None_iff in Hb. lia.
Qed.

Lemma big_endian_length (k : nat) (v : Z) : length (big_endian k v) = k.
Proof.
  revert v. induction k as [|k IH]; intros v; [done|].
  cbn. rewrite length_app, IH. cbn. lia.
Qed.

(** Reading the bytes back, most significant first, gives the number. *)
Lemma big_endian_value (k : nat) (v : Z) :
  0 ≤ v < 256 ^ Z.of_nat k →
  foldl (λ acc b, acc * 256 + byte_value b) 0 (big_endian k v) = v.
Proof.
  revert v. induction k as [|k IH]; intros v Hv.
  - cbn in *. lia.
  - cbn [big_endian]. rewrite foldl_app. cbn [foldl].
    rewrite Nat2Z.inj_succ, Z.pow_succ_r in Hv by lia.
    rewrite IH by (split; [apply Z.div_pos; lia|
                           apply Z.div_lt_upper_bound; lia]).
    rewrite byte_value_of by (apply Z.mod_pos_bound; lia).
    pose proof (Z.div_mod v 256 ltac:(lia)). lia.
Qed.

Lemma starting_with_read (bytes : list Byte.byte) :
  map (starting_with bytes) (seq 0 (length bytes)) = bytes.
Proof.
  apply list_eq. intros i. unfold starting_with.
  change (map ?f ?l) with (f <$> l).
  rewrite list_lookup_fmap.
  destruct (decide (i < length bytes)%nat) as [Hi|Hi].
  - rewrite lookup_seq_lt by done. cbn.
    destruct (lookup_lt_is_Some_2 bytes i Hi) as [b Hb]. by rewrite Hb.
  - rewrite lookup_seq_ge by lia. cbn. symmetry. apply lookup_ge_None. lia.
Qed.

(** X6.  No index is out of reach: for every [max >= 1] and every target in
    [[0, max)] there are bytes on which [secureRandomInt(max)] answers the
    target. *)
Theorem secureRandomInt_reaches (max target : Z) :
  1 ≤ max → 0 ≤ target < max →
  ∃ e : Entropy, (secureRandomInt max e).1 = target.
Proof.
  intros Hmax Ht.
  pose proof (bytesNeeded_nonneg max) as Hk.
  pose proof (bytesNeeded_covers max Hmax) as Hcov.
  set (k := bytesNeeded max) in *.
  set (M := 256 ^ k) in *.
  assert (HM : 0 < M) by (apply Z.pow_pos_nonneg; lia).
  set (v := (target * M + max - 1) / max).
  pose proof (Z.div_mod (target * M + max - 1) max ltac:(lia)) as Hdm.
  pose proof (Z.mod_pos_bound (target * M + max - 1) max ltac:(lia)) as Hmod.
  fold v in Hdm.
  assert (Hlo : target * M ≤ v * max) by lia.
  assert (Hhi : v * max < (target + 1) * M) by nia.
  assert (Hv : 0 ≤ v < M) by nia.
  exists (starting_with (big_endian (Z.to_nat k) v)).
  unfold secureRandomInt, randomBytes. cbn [fst]. fold k. fold M.
  pose proof (starting_with_read (big_endian (Z.to_nat k) v)) as Hread.
  rewrite big_endian_length in Hread. rewrite Hread.
  rewrite big_endian_value by (rewrite Z2Nat.id by lia; exact Hv).
  symmetry. apply Z.div_unique with (v * max - target * M); lia.
Qed.

End ShuffleMore.

Lemma secureRandomInt_width_witness :
  (2 ≤ 300)%Z
  ∧ ((256 ^ (Shuffle.bytesNeeded 300 - 1) < 300 ≤ 256 ^ Shuffle.bytesNeeded 300)%Z
     ∧ ∀ i : nat,
         (Shuffle.secureRandomInt 300 (λ _, Byte.x2a)).2 i
         = (λ _, Byte.x2a) (Z.to_nat (Shuffle.bytesNeeded 300) + i)%nat).
Proof.
  assert (H : (2 ≤ 300)%Z) by lia.
  split; [exact H|].
  exact (secureRandomInt_width 300 (λ _, Byte.x2a) H).
Defined.

Lemma secureRandomInt_reaches_witness :
  ((1 ≤ 5)%Z ∧ (0 ≤ 3 < 5)%Z)
  ∧ ∃ e : Shuffle.Entropy, (Shuffle.secureRandomInt 5 e).1 = 3%Z.
Proof.
  assert (H1 : (1 ≤ 5)%Z) by lia.
  assert (H2 : (0 ≤ 3 < 5)%Z) by lia.
  split; [exact (conj H1 H2)|].
  exact (secureRandomInt_reaches 5 3 H1 H2).
Defined.

(** ** Photo lookup and cache *)

Section CacheMore.
Import Host Game.
Context {Env : Type} (svc : Services Env).

Ltac run_lookup :=
  unfold getPhotoForLocation, isCacheValid, loadCache, saveCache,
    Cache.read, Cache.write, bind, ret, call in *;
  cbn [fst snd env fs entropy] in *.

(** X7.  A fresh entry answers the lookup by itself: the photo is the cached
    one at the coordinates asked for, the cache file and the entropy are left
    alone, and the environment has only been asked the time, twice; neither
    the geocoder nor the photo search is called. *)
Theorem getPhotoForLocation_fresh_hit (balloonId : jsvalue) (la lo : float)
    (w : World Env) (c : Cache.CachedPhoto) :
  (loadCache w).1 !! String_of svc balloonId = Some c →
  (isCacheValid svc c w).1 = true →
  getPhotoForLocation svc balloonId la lo w =
    (Some (Located.mk (Cache.photoUrl c) (Cache.photoAttribution c)
             (Cache.locationName c) la lo 0%float),
     mkWorld (Date_now svc (Date_now svc (env w)).2).2 (fs w) (entropy w)).
Proof.
  run_lookup. intros -> Hvalid.
  destruct (Date_now svc (env w)) as [now e1]. cbn [fst snd env fs entropy] in *.
  rewrite Hvalid.
  by destruct (Date_now svc e1) as [now' e2].
Qed.

(** Without a fresh entry, a lookup that finds a photo while the file can be
    written writes the document that the assignment [cache[balloonId] =
    cachedPhoto] leaves. *)
Lemma getPhotoForLocation_stores (balloonId : jsvalue) (la lo : float)
    (w : World Env) (p : Located.Photo) :
  Cache.writable (fs w) = true →
  match (loadCache w).1 !! String_of svc balloonId with
  | Some c => (isCacheValid svc c w).1 = false
  | None => True
  end →
  (getPhotoForLocation svc balloonId la lo w).1 = Some p →
  ∃ now : Z,
    Cache.file (fs (getPhotoForLocation svc balloonId la lo w).2)
    = Cache.Document
        (Cache.write (loadCache w).1 (String_of svc balloonId)
           (Cache.mkCached balloonId (Located.url p) (Located.attribution p)
              (Located.locationName p) now)).
Proof.
  unfold getPhotoForLocation, isCacheValid, loadCache, saveCache,
    Cache.read, bind, ret, call.
  cbn [fst snd env fs entropy]. intros Hw Hstale Hp.
  repeat case_match; simplify_eq/=; eauto; congruence.
Qed.

Lemma write_insert (cache : Cache.PhotoCache) (key : string)
    (entry : Cache.CachedPhoto) :
  key ≠ "__proto__" → Cache.write cache key entry = <[key := entry]> cache.
Proof.
  intros Hkey. unfold Cache.write. by rewrite bool_decide_eq_false_2.
Qed.

(** The document after a lookup is the one before, or the one before with
    the balloon's key set. *)
Lemma getPhotoForLocation_file (balloonId : jsvalue) (la lo : float)
    (w : World Env) :
  (loadCache (getPhotoForLocation svc balloonId la lo w).2).1
  = (loadCache w).1
  ∨ ∃ c, (loadCache (getPhotoForLocation svc balloonId la lo w).2).1
         = <[String_of svc balloonId := c]> (loadCache w).1.
Proof.
  run_lookup.
  repeat case_match; simplify_eq/=; eauto; left; congruence.
Qed.

(** X8.  Without a fresh entry, a lookup that finds a photo for a balloon
    whose id does not read ["__proto__"], while the file can be written,
    leaves a document that is the former one with the balloon's key set to
    the photo found: same url, attribution and place name as the answer, and
    the balloon's id. *)
Theorem getPhotoForLocation_caches (balloonId : jsvalue) (la lo : float)
    (w : World Env) (p : Located.Photo) :
  String_of svc balloonId ≠ "__proto__" →
  Cache.writable (fs w) = true →
  match (loadCache w).1 !! String_of svc balloonId with
  | Some c => (isCacheValid svc c w).1 = false
  | None => True
  end →
  (getPhotoForLocation svc balloonId la lo w).1 = Some p →
  ∃ now : Z,
    Cache.file (fs (getPhotoForLocation svc balloonId la lo w).2)
    = Cache.Document
        (<[String_of svc balloonId :=
             Cache.mkCached balloonId (Located.url p) (Located.attribution p)
               (Located.locationName p) now]> (loadCache w).1).
Proof.
  intros Hkey Hw Hstale Hp.
  destruct (getPhotoForLocation_stores balloonId la lo w p Hw Hstale Hp)
    as (now & Hfile).
  exists now. by rewrite Hfile, write_insert.
Qed.

(** The answer of a lookup is the same in two worlds that differ only in
    whether the cache file can be written. *)
Lemma getPhotoForLocation_answer (balloonId : jsvalue) (la lo : float)
    (e : Env) (file : Cache.CacheFile) (r : Shuffle.Entropy)
    (writable writable' : bool) :
  (getPhotoForLocation svc balloonId la lo
     (mkWorld e (Cache.mkFs file writable) r)).1
  = (getPhotoForLocation svc balloonId la lo
       (mkWorld e (Cache.mkFs file writable') r)).1.
Proof.
  run_lookup.
  repeat (case_match; simplify_eq/=; try done).
Qed.

Lemma getPhotoForLocation_unwritten (balloonId : jsvalue) (la lo : float)
    (w : World Env) :
  Cache.writable (fs w) = false
  ∨ (getPhotoForLocation svc balloonId la lo w).1 = None →
  fs (getPhotoForLocation svc balloonId la lo w).2 = fs w.
Proof.
  run_lookup. intros H.
  repeat case_match; simplify_eq/=; try done; destruct H; congruence.
Qed.

(** X9.  The cache is best effort.  With a cache file that cannot be written
    a lookup answers what it answers when the file can be written, photo or
    none, and leaves the file as it was; and a lookup that finds nothing
    leaves the file as it was in any case. *)
Theorem getPhotoForLocation_keeps_file (balloonId : jsvalue) (la lo : float)
    (w : World Env) :
  let readonly :=
    mkWorld (env w) (Cache.mkFs (Cache.file (fs w)) false) (entropy w) in
  (getPhotoForLocation svc balloonId la lo readonly).1
  = (getPhotoForLocation svc balloonId la lo w).1
  ∧ fs (getPhotoForLocation svc balloonId la lo readonly).2 = fs readonly
  ∧ ((getPhotoForLocation svc balloonId la lo w).1 = None →
     fs (getPhotoForLocation svc balloonId la lo w).2 = fs w).
Proof.
  cbv zeta. split; [|split].
  - destruct w as [e [file writable] r]. apply getPhotoForLocation_answer.
  - apply getPhotoForLocation_unwritten. by left.
  - intros Hnone. apply getPhotoForLocation_unwritten. by right.
Qed.

(** X10.  A lookup for one balloon never touches the entry of another: under
    every other key the cache reads as before. *)
Theorem getPhotoForLocation_other_keys (balloonId : jsvalue) (la lo : float)
    (w : World Env) (key : string) :
  key ≠ String_of svc balloonId →
  (loadCache (getPhotoForLocation svc balloonId la lo w).2).1 !! key
  = (loadCache w).1 !! key.
Proof.
  intros Hkey.
  destruct (getPhotoForLocation_file balloonId la lo w) as [->|(c & ->)];
    [done|].
  by rewrite lookup_insert_ne.
Qed.

(** X21.  A photo found and written to the cache is what the next lookup
    for the same balloon id answers, as long as the id does not read
    ["__proto__"] and the entry is still fresh then, and at whatever
    coordinates the balloon is then looked up: the cache goes by the id
    alone. *)
Theorem getPhotoForLocation_served_again (balloonId : jsvalue)
    (la lo la' lo' : float) (w : World Env) (p : Located.Photo) :
  String_of svc balloonId ≠ "__proto__" →
  Cache.writable (fs w) = true →
  match (loadCache w).1 !! String_of svc balloonId with
  | Some c => (isCacheValid svc c w).1 = false
  | None => True
  end →
  (getPhotoForLocation svc balloonId la lo w).1 = Some p →
  (∀ c, (loadCache (getPhotoForLocation svc balloonId la lo w).2).1
          !! String_of svc balloonId = Some c →
        (isCacheValid svc c (getPhotoForLocation svc balloonId la lo w).2).1
        = true) →
  (getPhotoForLocation svc balloonId la' lo'
     (getPhotoForLocation svc balloonId la lo w).2).1
  = Some (Located.mk (Located.url p) (Located.attribution p)
            (Located.locationName p) la' lo' 0%float).
Proof.
  intros Hkey Hw Hstale Hp Hfresh.
  destruct (getPhotoForLocation_stores balloonId la lo w p Hw Hstale Hp)
    as (now & Hfile).
  rewrite write_insert in Hfile by done.
  set (w1 := (getPhotoForLocation svc balloonId la lo w).2) in *.
  set (c := Cache.mkCached balloonId (Located.url p) (Located.attribution p)
              (Located.locationName p) now) in *.
  assert (Hc : (loadCache w1).1 !! String_of svc balloonId = Some c).
  { unfold loadCache. cbn [fst]. rewrite Hfile. apply lookup_insert_eq. }
  destruct (getPhotoForLocation_hit svc balloonId la' lo' w1 c Hc
              (Hfresh c Hc)) as [-> _].
  reflexivity.
Qed.

Lemma fetchFrom_fs (n hour : nat) (w : World Env) :
  fs (fetchFrom svc n hour w).2 = fs w.
Proof.
  revert hour w. induction n as [|n IH]; intros hour w; [done|].
  cbn [fetchFrom]. unfold bind, call, ret.
  destruct (feed svc hour (env w)) as [[data|] e'].
  - destruct (0 <? length (extractAll data))%nat; [done|]. by rewrite IH.
  - by rewrite IH.
Qed.

Lemma fetchBalloonData_fs (w : World Env) :
  fs (fetchBalloonData svc w).2 = fs w.
Proof. apply fetchFrom_fs. Qed.

(** Through the loop, an entry on file stays on file, and the entries of
    balloons that are not visited are not touched. *)
Lemma collect_cache (numRounds : Z) (selected : list BalloonData)
    (rounds : list GameRound) (w : World Env) (key : string) :
  (is_Some ((loadCache w).1 !! key) →
   is_Some ((loadCache (collect svc numRounds selected rounds w).2).1 !! key))
  ∧ ((∀ b, b ∈ selected → key ≠ String_of svc (id b)) →
     (loadCache (collect svc numRounds selected rounds w).2).1 !! key
     = (loadCache w).1 !! key).
Proof.
  revert rounds w. induction selected as [|b rest IH]; intros rounds w.
  - by cbn.
  - cbn [collect]. unfold bind.
    destruct (Z.of_nat (length rounds) <? numRounds)%Z; [|by cbn].
    pose proof (getPhotoForLocation_file (id b) (lat b) (lon b) w) as Hfile.
    destruct (getPhotoForLocation svc _ _ _ w) as [photo w1].
    cbn [snd] in Hfile.
    assert (Hstep :
      (is_Some ((loadCache w).1 !! key) → is_Some ((loadCache w1).1 !! key))
      ∧ (key ≠ String_of svc (id b) →
         (loadCache w1).1 !! key = (loadCache w).1 !! key)).
    { destruct Hfile as [->|(c & ->)]; [done|]. split.
      - intros Hsome. rewrite lookup_insert_is_Some. 
        destruct (decide (String_of svc (id b) = key)); [by left|by right].
      - intros Hne. by rewrite lookup_insert_ne. }
    destruct Hstep as [Hkeep Hsame].
    assert (Hrest : ∀ rounds',
      (is_Some ((loadCache w).1 !! key) →
       is_Some ((loadCache (collect svc numRounds rest rounds' w1).2).1
                  !! key))
      ∧ ((∀ b', b' ∈ b :: rest → key ≠ String_of svc (id b')) →
         (loadCache (collect svc numRounds rest rounds' w1).2).1 !! key
         = (loadCache w).1 !! key)).
    { intros rounds'. destruct (IH rounds' w1) as [IH1 IH2]. split.
      - intros Hsome. by apply IH1, Hkeep.
      - intros Hall. rewrite IH2.
        + apply Hsame, Hall, list_elem_of_here.
        + intros b' Hb'. by apply Hall, list_elem_of_further. }
    destruct photo; apply Hrest.
Qed.

(** X22.  A game evicts nothing: an entry that is in the cache before
    [createGameRound] is in it afterwards (possibly renewed), and the entry
    under a key that belongs to no observation of the feed is exactly as
    before. *)
Theorem createGameRound_keeps_cache (numRounds : Z) (w : World Env)
    (key : string) :
  (is_Some ((loadCache w).1 !! key) →
   is_Some ((loadCache (createGameRound svc numRounds w).2).1 !! key))
  ∧ (key ∉ (λ b, String_of svc (id b)) <$> (fetchBalloonData svc w).1 →
     (loadCache (createGameRound svc numRounds w).2).1 !! key
     = (loadCache w).1 !! key).
Proof.
  unfold createGameRound, bind, ret.
  pose proof (fetchBalloonData_fs w) as Hfs.
  destruct (fetchBalloonData svc w) as [balloons w1]. cbn [fst snd] in *.
  assert (Hload1 : (loadCache w1).1 = (loadCache w).1)
    by (unfold loadCache; cbn; by rewrite Hfs).
  destruct (length balloons =? 0)%nat; cbn [snd]; [by rewrite Hload1|].
  assert (Hsh : (shuffleBalloons balloons w1).1 ≡ₚ balloons
                ∧ fs (shuffleBalloons balloons w1).2 = fs w1).
  { unfold shuffleBalloons.
    pose proof (shuffleArray_rearranges undefinedBalloon balloons
                  (entropy w1)) as Hp.
    by destruct (Shuffle.shuffleArray _ balloons _) as [sh e']. }
  destruct (shuffleBalloons balloons w1) as [shuffled w2].
  cbn [fst snd] in Hsh. destruct Hsh as [Hperm Hfs2].
  assert (Hload2 : (loadCache w2).1 = (loadCache w).1)
    by (rewrite <- Hload1; unfold loadCache; cbn; by rewrite Hfs2).
  set (selected := slice_to shuffled _).
  destruct (collect_cache numRounds selected [] w2 key) as [Hkeep Hsame].
  destruct (collect svc numRounds selected [] w2) as [collected w3].
  cbn [snd] in *. rewrite Hload2 in Hkeep, Hsame.
  assert (Hgoal :
    (is_Some ((loadCache w).1 !! key) → is_Some ((loadCache w3).1 !! key))
    ∧ (key ∉ (λ b, String_of svc (id b)) <$> balloons →
       (loadCache w3).1 !! key = (loadCache w).1 !! key)).
  { split; [exact Hkeep|]. intros Hkey. apply Hsame.
    intros b Hb ->. apply Hkey.
    apply (list_elem_of_fmap_2 (λ b, String_of svc (id b))).
    rewrite <- Hperm. eapply elem_of_sublist; [exact Hb|].
    apply sublist_take. }
  by destruct (length collected =? 0)%nat.
Qed.

Lemma load_save (cache : Cache.PhotoCache) (w : World Env) :
  Cache.writable (fs w) = true → (loadCache (saveCache cache w).2).1 = cache.
Proof. intros Hw. unfold loadCache, saveCache. by rewrite Hw. Qed.

(** X23.  An entry [c] is written under a [key] other than ["__proto__"]
    (the write goes through) and the cache is read at a later state [w'] of
    the world, whose clock reads [now].  The entry read back is [c];
    [isCacheValid] holds exactly when [now - timestamp c] is strictly below 24
    hours; an entry that old or older is reported expired, and is still in
    the file after the check; it stays under its key when another key is
    written, and goes when its own key is written again. *)
Theorem cache_round_trip (w w' : World Env) (key : string)
    (c : Cache.CachedPhoto) (now : Z) :
  key ≠ "__proto__" →
  Cache.writable (fs w) = true →
  fs w' = fs (saveCache (Cache.write (loadCache w).1 key c) w).2 →
  (Date_now svc (env w')).1 = now →
  Cache.read (loadCache w').1 key = Cache.Own c
  ∧ ((isCacheValid svc c w').1 = true
     ↔ (now - Cache.timestamp c < 24 * 60 * 60 * 1000)%Z)
  ∧ ((24 * 60 * 60 * 1000 ≤ now - Cache.timestamp c)%Z →
     (isCacheValid svc c w').1 = false
     ∧ Cache.read (loadCache (isCacheValid svc c w').2).1 key = Cache.Own c)
  ∧ (∀ (key' : string) (c' : Cache.CachedPhoto),
       Cache.read
         (loadCache (saveCache (Cache.write (loadCache w').1 key' c') w').2).1
         key
       = if decide (key' = key) then Cache.Own c' else Cache.Own c).
Proof.
  intros Hkey Hw Hfs Hnow.
  rewrite write_insert in Hfs by done.
  unfold saveCache in Hfs. rewrite Hw in Hfs. cbn in Hfs.
  assert (Hread : (loadCache w').1 !! key = Some c).
  { unfold loadCache. cbn. rewrite Hfs. cbn. apply lookup_insert_eq. }
  assert (Hvalid : (isCacheValid svc c w').1
                   = (now - Cache.timestamp c <? Cache.CACHE_DURATION)%Z).
  { unfold isCacheValid, bind, call, ret.
    destruct (Date_now svc (env w')) as [t e']. cbn in Hnow. by subst t. }
  assert (Hkeep : fs (isCacheValid svc c w').2 = fs w').
  { unfold isCacheValid, bind, call, ret.
    by destruct (Date_now svc (env w')) as [t e']. }
  change (24 * 60 * 60 * 1000)%Z with Cache.CACHE_DURATION.
  split; [by unfold Cache.read; rewrite Hread|]. split; [|split].
  - rewrite Hvalid. apply Z.ltb_lt.
  - intros Hold. split.
    + rewrite Hvalid. apply Z.ltb_ge. exact Hold.
    + unfold loadCache in *. cbn [fst] in *. rewrite Hkeep.
      unfold Cache.read. by rewrite Hread.
  - intros key' c'.
    assert (Hw' : Cache.writable (fs w') = true) by (by rewrite Hfs).
    rewrite (load_save _ _ Hw').
    set (cache' := (loadCache w').1) in *.
    unfold Cache.read, Cache.write.
    destruct (bool_decide (key' = "__proto__")
              && bool_decide (cache' !! key' = None)) eqn:Hproto.
    + apply andb_true_iff in Hproto as [Hk' _].
      apply bool_decide_eq_true_1 in Hk'. subst key'.
      rewrite decide_False by congruence. by rewrite Hread.
    + rewrite lookup_insert.
      destruct (decide (key' = key)); [done|by rewrite Hread].
Qed.

End CacheMore.

Lemma cache_round_trip_witness :
  let w' :=
    (Game.saveCache
       (Cache.write (Game.loadCache Demo.world).1 "7" Demo.entry)
       Demo.world).2 in
  "7" ≠ "__proto__"
  ∧ Cache.writable (Host.fs Demo.world) = true
  ∧ (Host.Date_now Demo.services (Host.env w')).1 = 1700000000000%Z
  ∧ Cache.read (Game.loadCache w').1 "7" = Cache.Own Demo.entry
  ∧ ((Game.isCacheValid Demo.services Demo.entry w').1 = true
     ↔ (1700000000000 - Cache.timestamp Demo.entry < 24 * 60 * 60 * 1000)%Z)
  ∧ ((24 * 60 * 60 * 1000 ≤ 1700000000000 - Cache.timestamp Demo.entry)%Z →
     (Game.isCacheValid Demo.services Demo.entry w').1 = false
     ∧ Cache.read
         (Game.loadCache (Game.isCacheValid Demo.services Demo.entry w').2).1
         "7" = Cache.Own Demo.entry)
  ∧ (∀ (key' : string) (c' : Cache.CachedPhoto),
       Cache.read
         (Game.loadCache
            (Game.saveCache (Cache.write (Game.loadCache w').1 key' c')
               w').2).1 "7"
       = if decide (key' = "7") then Cache.Own c' else Cache.Own Demo.entry).
Proof.
  cbv zeta.
  assert (Hkey : "7" ≠ "__proto__") by discriminate.
  split; [exact Hkey|]. split; [reflexivity|]. split; [reflexivity|].
  apply (cache_round_trip Demo.services Demo.world _ "7" Demo.entry
           1700000000000%Z Hkey); reflexivity.
Defined.

Lemma getPhotoForLocation_fresh_hit_witness :
  ((Game.loadCache Demo.cachedWorld).1
     !! Host.String_of Demo.services (JStr "7") = Some Demo.entry
   ∧ (Game.isCacheValid Demo.services Demo.entry Demo.cachedWorld).1 = true)
  ∧ Game.getPhotoForLocation Demo.services (JStr "7") 10%float 20%float
      Demo.cachedWorld
    = (Some (Located.mk (Cache.photoUrl Demo.entry)
               (Cache.photoAttribution Demo.entry)
               (Cache.locationName Demo.entry) 10%float 20%float 0%float),
       Host.mkWorld
         (Host.Date_now Demo.services
            (Host.Date_now Demo.services (Host.env Demo.cachedWorld)).2).2
         (Host.fs Demo.cachedWorld) (Host.entropy Demo.cachedWorld)).
Proof.
  assert (H1 : (Game.loadCache Demo.cachedWorld).1
                 !! Host.String_of Demo.services (JStr "7") = Some Demo.entry)
    by (vm_compute; reflexivity).
  assert (H2 : (Game.isCacheValid Demo.services Demo.entry
                  Demo.cachedWorld).1 = true) by reflexivity.
  split; [exact (conj H1 H2)|].
  exact (getPhotoForLocation_fresh_hit Demo.services (JStr "7") 10%float
           20%float Demo.cachedWorld Demo.entry H1 H2).
Defined.

Lemma getPhotoForLocation_caches_witness :
  let p := Located.mk "https://images.example/1" "Photo by A on Unsplash"
             "Somewhere" 45%float (-122)%float 0%float in
  (Game.getPhotoForLocation Demo.services (JStr "0") 45%float (-122)%float
     Demo.world).1 = Some p
  ∧ ∃ now : Z,
      Cache.file
        (Host.fs (Game.getPhotoForLocation Demo.services (JStr "0") 45%float
                    (-122)%float Demo.world).2)
      = Cache.Document
          (<[Host.String_of Demo.services (JStr "0") :=
               Cache.mkCached (JStr "0") (Located.url p)
                 (Located.attribution p) (Located.locationName p) now]>
             (Game.loadCache Demo.world).1).
Proof.
  cbv zeta.
  assert (H : (Game.getPhotoForLocation Demo.services (JStr "0") 45%float
                 (-122)%float Demo.world).1
              = Some (Located.mk "https://images.example/1"
                        "Photo by A on Unsplash" "Somewhere" 45%float
                        (-122)%float 0%float)) by (vm_compute; reflexivity).
  split; [exact H|].
  assert (Hkey : Host.String_of Demo.services (JStr "0") ≠ "__proto__")
    by (cbn; discriminate).
  exact (getPhotoForLocation_caches Demo.services (JStr "0") 45%float
           (-122)%float Demo.world _ Hkey eq_refl I H).
Defined.

(** A file that cannot be written: the photo is returned all the same. *)
Lemma getPhotoForLocation_keeps_file_witness :
  let readonly :=
    Host.mkWorld (Host.env Demo.world)
      (Cache.mkFs (Cache.file (Host.fs Demo.world)) false)
      (Host.entropy Demo.world) in
  (Game.getPhotoForLocation Demo.services (JStr "0") 45%float (-122)%float
     readonly).1
  = Some (Located.mk "https://images.example/1" "Photo by A on Unsplash"
            "Somewhere" 45%float (-122)%float 0%float)
  ∧ Host.fs (Game.getPhotoForLocation Demo.services (JStr "0") 45%float
               (-122)%float readonly).2 = Host.fs readonly.
Proof.
  cbv zeta.
  destruct (getPhotoForLocation_keeps_file Demo.services (JStr "0") 45%float
              (-122)%float Demo.world) as (Hsame & Hfile & _).
  split; [|exact Hfile].
  rewrite Hsame. vm_compute. reflexivity.
Defined.

Lemma getPhotoForLocation_other_keys_witness :
  "7" ≠ Host.String_of Demo.services (JStr "0")
  ∧ (Game.loadCache
       (Game.getPhotoForLocation Demo.services (JStr "0") 45%float
          (-122)%float Demo.cachedWorld).2).1 !! "7"
    = (Game.loadCache Demo.cachedWorld).1 !! "7".
Proof.
  assert (H : "7" ≠ Host.String_of Demo.services (JStr "0"))
    by (cbn; discriminate).
  split; [exact H|].
  exact (getPhotoForLocation_other_keys Demo.services (JStr "0") 45%float
           (-122)%float Demo.cachedWorld "7" H).
Defined.

(** ** Round assembly, continued *)

Section GameMore.
Import Host Game.
Context {Env : Type} (svc : Services Env).

(** The survivors of a list of balloons were made for some of them, in their
    order. *)
Lemma resolveAll_sublist (balloons : list BalloonData) (w : World Env) :
  ∃ kept, kept `sublist_of` balloons
          ∧ Forall2 made_for kept (resolveAll svc balloons w).1.
Proof.
  revert w. induction balloons as [|b rest IH]; intros w.
  - exists []. split; constructor.
  - cbn [resolveAll]. unfold bind, ret.
    destruct (getPhotoForLocation svc _ _ _ w) as [photo w1].
    destruct (IH w1) as (kept & Hsub & Hmade).
    destruct (resolveAll svc rest w1) as [more w2]. cbn [fst] in *.
    destruct photo as [p|].
    + exists (b :: kept). split; [by constructor|].
      constructor; [|done]. by unfold made_for, makeRound.
    + exists kept. split; [by constructor|done].
Qed.

(** What a successful [createGameRound] returns, in terms of the loop. *)
Lemma createGameRound_rounds (numRounds : Z) (w : World Env)
    (rounds : list GameRound) :
  (createGameRound svc numRounds w).1 = inr rounds →
  ∃ shuffled w2,
    shuffled ≡ₚ (fetchBalloonData svc w).1
    ∧ rounds ≠ []
    ∧ rounds =
        take (Z.to_nat numRounds)
          (resolveAll svc
             (slice_to shuffled
                (Z.min (numRounds * 3) (Z.of_nat (length shuffled)))) w2).1.
Proof.
  unfold createGameRound, bind, ret.
  destruct (fetchBalloonData svc w) as [balloons w1].
  destruct (length balloons =? 0)%nat; [discriminate|].
  assert (Hperm : (shuffleBalloons balloons w1).1 ≡ₚ balloons).
  { unfold shuffleBalloons.
    pose proof (shuffleArray_rearranges undefinedBalloon balloons
                  (entropy w1)) as Hp.
    by destruct (Shuffle.shuffleArray _ balloons _) as [sh e']. }
  destruct (shuffleBalloons balloons w1) as [shuffled w2].
  pose proof (collect_resolveAll svc numRounds
                (slice_to shuffled
                   (Z.min (numRounds * 3) (Z.of_nat (length shuffled))))
                [] w2) as Hc.
  destruct (collect svc _ _ _ w2) as [collected w3].
  cbn [fst app length] in *. rewrite Z.sub_0_r in Hc.
  destruct collected as [|r collected]; [discriminate|].
  cbn. intros [= <-]. exists shuffled, w2. by rewrite <- Hc.
Qed.

(** X11.  The rounds of a successful game were made for balloons of the feed,
    each balloon serving at most once (as often as the feed lists it): the
    balloons used are a sub-multiset of the feed's observations; so every
    round carries an id and coordinates read from the feed, its coordinates
    are within bounds, and there are no more rounds than observations. *)
Theorem createGameRound_from_feed (numRounds : Z) (w : World Env)
    (rounds : list GameRound) :
  (createGameRound svc numRounds w).1 = inr rounds →
  (∃ used, used ⊆+ (fetchBalloonData svc w).1 ∧ Forall2 made_for used rounds)
  ∧ Forall (λ r, in_bounds (balloonLat r) (balloonLon r) = true) rounds
  ∧ length rounds ≤ length (fetchBalloonData svc w).1.
Proof.
  intros H. apply createGameRound_rounds in H as (shuffled & w2 & Hperm & _ & ->).
  set (selected := slice_to shuffled _).
  destruct (resolveAll_sublist selected w2) as (kept & Hsub & Hmade).
  assert (Hused : take (Z.to_nat numRounds) kept ⊆+ (fetchBalloonData svc w).1).
  { rewrite <- Hperm.
    etrans; [apply sublist_submseteq, sublist_take|].
    etrans; [apply sublist_submseteq, Hsub|].
    apply sublist_submseteq, sublist_take. }
  pose proof (Forall2_take _ _ _ (Z.to_nat numRounds) Hmade) as Hmade'.
  split; [by eexists|]. split.
  - eapply Forall2_Forall_r; [exact Hmade'|].
    apply Forall_forall. intros b Hb r (_ & -> & ->).
    pose proof (fetchBalloonData_checked svc w) as Hin.
    rewrite Forall_forall in Hin. apply Hin.
    by eapply elem_of_submseteq.
  - rewrite <- (Forall2_length _ _ _ Hmade'). by apply submseteq_length.
Qed.

(** With services that always answer, every lookup finds a photo. *)
Lemma getPhotoForLocation_answers (balloonId : jsvalue) (la lo : float)
    (w : World Env) :
  (∀ la lo e, ∃ name,
      (reverseGeocode svc la lo e).1 = Some name ∧ name ≠ ""%string) →
  (∀ name la lo e, is_Some (fetchUnsplashPhoto svc name la lo e).1) →
  is_Some (getPhotoForLocation svc balloonId la lo w).1.
Proof.
  intros Hgeo Hphoto.
  unfold getPhotoForLocation, isCacheValid, loadCache, saveCache,
    bind, ret, call.
  cbn [fst snd env fs entropy].
  repeat case_match; simplify_eq/=; try done;
    repeat match goal with
      | H : reverseGeocode svc ?a ?b ?e = _ |- _ =>
          destruct (Hgeo a b e) as (? & Hn & Hne); rewrite H in Hn;
          cbn in Hn; clear H
      | H : fetchUnsplashPhoto svc ?n ?a ?b ?e = _ |- _ =>
          destruct (Hphoto n a b e) as (? & Hp); rewrite H in Hp;
          cbn in Hp; clear H
      end; congruence.
Qed.

Lemma resolveAll_all (balloons : list BalloonData) (w : World Env) :
  (∀ la lo e, ∃ name,
      (reverseGeocode svc la lo e).1 = Some name ∧ name ≠ ""%string) →
  (∀ name la lo e, is_Some (fetchUnsplashPhoto svc name la lo e).1) →
  length (resolveAll svc balloons w).1 = length balloons.
Proof.
  intros Hgeo Hphoto. revert w.
  induction balloons as [|b rest IH]; intros w; [done|].
  cbn [resolveAll]. unfold bind, ret.
  pose proof (getPhotoForLocation_answers (id b) (lat b) (lon b) w Hgeo Hphoto)
    as [p Hp].
  destruct (getPhotoForLocation svc _ _ _ w) as [photo w1].
  cbn in Hp. subst photo. specialize (IH w1).
  destruct (resolveAll svc rest w1) as [more w2]. cbn in *. by rewrite IH.
Qed.

(** X12.  With a geocoder that names every place and a photo search that
    always answers, a game of [numRounds >= 1] rounds over a feed with
    observations succeeds, with exactly as many rounds as asked for, or as
    many as there are observations when these are fewer. *)
Theorem createGameRound_full (numRounds : Z) (w : World Env) :
  (∀ la lo e, ∃ name,
      (reverseGeocode svc la lo e).1 = Some name ∧ name ≠ ""%string) →
  (∀ name la lo e, is_Some (fetchUnsplashPhoto svc name la lo e).1) →
  (1 ≤ numRounds)%Z →
  (fetchBalloonData svc w).1 ≠ [] →
  ∃ rounds,
    (createGameRound svc numRounds w).1 = inr rounds
    ∧ length rounds
      = Nat.min (Z.to_nat numRounds) (length (fetchBalloonData svc w).1).
Proof.
  intros Hgeo Hphoto Hn Hfeed.
  unfold createGameRound, bind, ret.
  destruct (fetchBalloonData svc w) as [balloons w1]. cbn [fst] in Hfeed.
  destruct balloons as [|b balloons]; [done|]. cbn [length Nat.eqb].
  assert (Hperm : (shuffleBalloons (b :: balloons) w1).1 ≡ₚ b :: balloons).
  { unfold shuffleBalloons.
    pose proof (shuffleArray_rearranges undefinedBalloon (b :: balloons)
                  (entropy w1)) as Hp.
    by destruct (Shuffle.shuffleArray _ (b :: balloons) _) as [sh e']. }
  destruct (shuffleBalloons (b :: balloons) w1) as [shuffled w2].
  cbn [fst] in Hperm. apply Permutation_length in Hperm. cbn [length] in Hperm.
  rewrite slice_to_take by lia.
  pose proof (collect_resolveAll svc numRounds
                (take (Z.to_nat (numRounds * 3)) shuffled) [] w2) as Hc.
  pose proof (resolveAll_all (take (Z.to_nat (numRounds * 3)) shuffled) w2
                Hgeo Hphoto) as Hlen.
  destruct (collect svc _ _ _ w2) as [collected w3].
  cbn [fst app length] in *. rewrite Z.sub_0_r in Hc.
  assert (Hcl : length collected
                = Nat.min (Z.to_nat numRounds) (S (length balloons))).
  { rewrite Hc, length_take, Hlen, length_take. lia. }
  destruct collected as [|r collected]; [cbn in Hcl; lia|].
  cbn [length Nat.eqb fst]. by eexists.
Qed.

End GameMore.

Lemma createGameRound_from_feed_witness :
  (Game.createGameRound Demo.services 2 Demo.world).1 = inr Demo.rounds
  ∧ ((∃ used, used ⊆+ (Game.fetchBalloonData Demo.services Demo.world).1
              ∧ Forall2 Game.made_for used Demo.rounds)
     ∧ Forall (λ r, in_bounds (Game.balloonLat r) (Game.balloonLon r) = true)
         Demo.rounds
     ∧ length Demo.rounds
       ≤ length (Game.fetchBalloonData Demo.services Demo.world).1).
Proof.
  assert (H : (Game.createGameRound Demo.services 2 Demo.world).1
              = inr Demo.rounds) by (vm_compute; reflexivity).
  split; [exact H|].
  exact (createGameRound_from_feed Demo.services 2 Demo.world Demo.rounds H).
Defined.

Lemma createGameRound_full_witness :
  (1 ≤ 2)%Z
  ∧ (Game.fetchBalloonData Demo.generous Demo.world).1 ≠ []
  ∧ ∃ rounds,
      (Game.createGameRound Demo.generous 2 Demo.world).1 = inr rounds
      ∧ length rounds
        = Nat.min (Z.to_nat 2)
            (length (Game.fetchBalloonData Demo.generous Demo.world).1).
Proof.
  assert (Hgeo : ∀ la lo e, ∃ name,
             (Host.reverseGeocode Demo.generous la lo e).1 = Some name
             ∧ name ≠ ""%string)
    by (intros; exists "Somewhere"%string; split; [reflexivity|discriminate]).
  assert (Hphoto : ∀ name la lo e,
             is_Some (Host.fetchUnsplashPhoto Demo.generous name la lo e).1)
    by (intros; eexists; reflexivity).
  assert (Hn : (1 ≤ 2)%Z) by lia.
  assert (Hfeed : (Game.fetchBalloonData Demo.generous Demo.world).1 ≠ [])
    by (vm_compute; discriminate).
  split; [exact Hn|]. split; [exact Hfeed|].
  exact (createGameRound_full Demo.generous 2 Demo.world Hgeo Hphoto Hn Hfeed).
Defined.

(** ** The routes and the geocoder's answer *)

Section RoutesMore.
Import Host Game.
Context {Env : Type} (svc : Services Env).

(** X13.  The start route answers either 200 with the rounds of a game of
    five, between one and five of them, or 500 "Failed to start game"; the
    500 is the same whether the feed was empty or no photo was found. *)
Theorem start_outcome (w : World Env) :
  (∃ rounds,
      (createGameRound svc 5 w).1 = inr rounds
      ∧ (Start.start svc w).1
        = Route.mkResponse 200
            (JObj [("rounds", JArr (Start.roundValue <$> rounds))])
      ∧ 1 ≤ length rounds ≤ 5)
  ∨ ((∃ e, (createGameRound svc 5 w).1 = inl e)
     ∧ (Start.start svc w).1
       = Route.mkResponse 500 (JObj [("error", JStr "Failed to start game")])).
Proof.
  unfold Start.start, bind, ret.
  destruct (createGameRound svc 5 w) as [[e|rounds] w'] eqn:Hc; cbn [fst].
  - right. split; [by exists e|done].
  - left. exists rounds. split; [done|]. split; [done|].
    assert (H : (createGameRound svc 5 w).1 = inr rounds) by (by rewrite Hc).
    apply createGameRound_rounds in H as (shuffled & w2 & _ & Hne & Hr).
    split.
    + destruct rounds; [done|cbn; lia].
    + rewrite Hr, length_take. lia.
Qed.

End RoutesMore.

Section GuessMore.
Import Route.
Variable calculateScore : jsvalue → jsvalue → jsvalue → jsvalue → jsvalue.
Variable getWeatherData : jsvalue → jsvalue → option jsvalue.

(** X14.  The guess route answers 200 exactly when the four coordinates of
    the body are truthy and the weather lookup succeeds; the answer then
    carries the score of those four values and echoes the actual position.
    A guess that could be scored is answered 500 when the weather lookup
    fails. *)
Theorem guess_scored (props : list (string * jsvalue)) :
  let actualLat := assoc "actualLat" props in
  let actualLon := assoc "actualLon" props in
  let guessLat := assoc "guessLat" props in
  let guessLon := assoc "guessLon" props in
  let complete :=
    truthy actualLat && truthy actualLon
    && truthy guessLat && truthy guessLon in
  let response := guess calculateScore getWeatherData (JObj props) in
  (status response = 200%Z
   ↔ complete = true ∧ is_Some (getWeatherData actualLat actualLon))
  ∧ (∀ weather,
       complete = true → getWeatherData actualLat actualLon = Some weather →
       response =
         mkResponse 200
           (JObj [("score",
                   calculateScore actualLat actualLon guessLat guessLon);
                  ("actualLocation",
                   JObj [("lat", actualLat); ("lon", actualLon)]);
                  ("weather", weather)]))
  ∧ (complete = true → getWeatherData actualLat actualLon = None →
     response
     = mkResponse 500 (JObj [("error", JStr "Failed to calculate score")])).
Proof.
  cbv zeta. unfold guess, get.
  destruct (truthy (assoc "actualLat" props)),
    (truthy (assoc "actualLon" props)),
    (truthy (assoc "guessLat" props)),
    (truthy (assoc "guessLon" props)); cbn;
    (split; [|split]); try (intros; discriminate);
    try (split; [discriminate|by intros [? ?]]).
  - destruct (getWeatherData _ _) as [weather|]; cbn.
    + split; [by eauto|done].
    + split; [discriminate|]. by intros [_ [? ?]].
  - by intros weather _ ->.
  - by intros _ ->.
Qed.

Lemma truthy_or_r (a b : jsvalue) :
  truthy b = true → truthy (a || b)%js = true.
Proof. intros Hb. unfold JS.or. by destruct (truthy a) eqn:Ha. Qed.

Lemma or_assoc (a b c : jsvalue) : ((a || b) || c)%js = (a || (b || c))%js.
Proof.
  unfold JS.or.
  destruct (truthy a) eqn:Ha; [by rewrite Ha|].
  by destruct (truthy b) eqn:Hb; rewrite ?Hb.
Qed.

(** A chain of [||] picks the first truthy operand, the last one when none
    is. *)
Lemma or_first (a rest d : jsvalue) (l : list jsvalue) :
  rest = default d (head (filter (λ v, truthy v = true) l)) →
  (a || rest)%js = default d (head (filter (λ v, truthy v = true) (a :: l))).
Proof.
  intros ->. rewrite filter_cons. unfold JS.or.
  case_decide as Ha; [by rewrite Ha|].
  apply not_true_is_false in Ha. by rewrite Ha.
Qed.

(** X15.  The geocoder's answer: there is none exactly when the request
    fails or the response has no (truthy) address; otherwise the name is the
    first truthy one among the address's city, town, state, country, ocean
    and sea, or "Unknown Location" when none is, and so it is never falsy:
    [getPhotoForLocation] skips a balloon only when there is no answer. *)
Theorem reverseGeocode_name (response : option jsvalue) :
  let address :=
    match response with
    | Some (JUndefined | JNull) | None => JUndefined
    | Some data => get data "address"
    end in
  let named :=
    filter (λ v, truthy v = true)
      (get address
         <$> ["city"; "town"; "state"; "country"; "ocean"; "sea"]) in
  (Geocode.reverseGeocode response = None ↔ truthy address = false)
  ∧ (truthy address = true →
     Geocode.reverseGeocode response
     = Some (default (JStr "Unknown Location") (head named)))
  ∧ (∀ name, Geocode.reverseGeocode response = Some name →
             truthy name = true).
Proof.
  cbv zeta. unfold Geocode.reverseGeocode.
  assert (Hchain : ∀ address,
    (get address "city" || get address "town" || get address "state"
     || get address "country" || get address "ocean" || get address "sea"
     || JStr "Unknown Location")%js
    = default (JStr "Unknown Location")
        (head (filter (λ v, truthy v = true)
                 (get address
                    <$> ["city"; "town"; "state"; "country"; "ocean";
                         "sea"])))).
  { intros address. cbn [fmap list_fmap].
    rewrite !or_assoc. repeat apply or_first. reflexivity. }
  assert (Htruthy : ∀ address,
    truthy (get address "city" || get address "town" || get address "state"
            || get address "country" || get address "ocean"
            || get address "sea" || JStr "Unknown Location")%js = true).
  { intros address. by apply truthy_or_r. }
  destruct response as [data|]; [|by repeat split].
  set (address := match data with
                  | JUndefined | JNull => JUndefined
                  | _ => get data "address"
                  end).
  assert (Haddr : match data with
                  | JUndefined | JNull => JUndefined
                  | _ => get data "address"
                  end = address) by done.
  replace (match data with
           | JUndefined | JNull => JUndefined
           | JBool _ | JNum _ | JStr _ | JArr _ | JObj _ => get data "address"
           end) with address by (by destruct data).
  destruct (truthy address) eqn:Ht; cbn.
  - split; [split; discriminate|]. split.
    + intros _. by rewrite Hchain.
    + intros name [= <-]. apply Htruthy.
  - split; [done|]. split; [discriminate|]. intros name [=].
Qed.

End GuessMore.

(** ** Distance and score, continued *)

Section ScoringMore.
Import Scoring.
#[local] Open Scope R_scope.

(** X16.  Distance and score do not depend on which of the two points is the
    actual one and which the guess. *)
Theorem calculateScore_symmetric (lat1 lon1 lat2 lon2 : R) :
  calculateDistance lat2 lon2 lat1 lon1 = calculateDistance lat1 lon1 lat2 lon2
  /\ calculateScore lat2 lon2 lat1 lon1 = calculateScore lat1 lon1 lat2 lon2.
Proof.
  assert (Hd : calculateDistance lat2 lon2 lat1 lon1
               = calculateDistance lat1 lon1 lat2 lon2).
  { rewrite !calculateDistance_unfold. cbv zeta.
    replace (toRad (lat1 - lat2) / 2) with (- (toRad (lat2 - lat1) / 2))
      by (unfold toRad; field).
    replace (toRad (lon1 - lon2) / 2) with (- (toRad (lon2 - lon1) / 2))
      by (unfold toRad; field).
    rewrite !sin_neg.
    do 3 f_equal; [f_equal; ring | f_equal; f_equal; ring]. }
  split; [exact Hd|]. unfold calculateScore. by rewrite Hd.
Qed.

(** X18.  A guess on the actual position is at distance 0 and scores the
    full 5000. *)
Theorem calculateScore_same_point (lat lon : R) :
  calculateDistance lat lon lat lon = 0 /\ calculateScore lat lon lat lon = 5000.
Proof.
  assert (Hd : calculateDistance lat lon lat lon = 0).
  { rewrite calculateDistance_unfold. cbv zeta.
    replace (toRad (lat - lat) / 2) with 0 by (unfold toRad; field).
    replace (toRad (lon - lon) / 2) with 0 by (unfold toRad; field).
    rewrite sin_0.
    replace (0 * 0 + cos (toRad lat) * cos (toRad lat) * 0 * 0) with 0 by ring.
    rewrite Rminus_0_r, sqrt_0, sqrt_1. unfold atan2.
    destruct (Rlt_dec 0 1); [|lra].
    replace (0 / 1) with 0 by field. rewrite atan_0. ring. }
  split; [exact Hd|]. unfold calculateScore. rewrite Hd.
  destruct (Rle_dec 0 500); [reflexivity|lra].
Qed.

End ScoringMore.

(** ** The distance the browser displays *)

Section ClientFacts.
#[local] Open Scope R_scope.

Lemma lower_spec (fuel : nat) (lon : R) :
  lon <= 180 + 360 * INR fuel ->
  exists k : nat,
    Client.lower fuel lon = Some (lon - 360 * INR k)
    /\ (k = O \/ -180 < lon - 360 * INR k).
Proof.
  revert lon. induction fuel as [|fuel IH]; intros lon Hlon.
  - cbn in *. destruct (Rlt_dec 180 lon); [lra|].
    exists O. cbn. split; [f_equal; ring|by left].
  - cbn [Client.lower]. rewrite S_INR in Hlon.
    destruct (Rlt_dec 180 lon) as [Hgt|Hle].
    + destruct (IH (lon - 360) ltac:(lra)) as (k & -> & Hk).
      exists (S k). rewrite S_INR. split; [f_equal; ring|right].
      destruct Hk as [->|Hk]; [cbn; lra|lra].
    + exists O. cbn. split; [f_equal; ring|by left].
Qed.

Lemma raise_spec (fuel : nat) (lon : R) :
  -180 - 360 * INR fuel <= lon ->
  exists k : nat, Client.raise fuel lon = Some (lon + 360 * INR k).
Proof.
  revert lon. induction fuel as [|fuel IH]; intros lon Hlon.
  - cbn in *. destruct (Rlt_dec lon (-180)); [lra|].
    exists O. cbn. f_equal. ring.
  - cbn [Client.raise]. rewrite S_INR in Hlon.
    destruct (Rlt_dec lon (-180)) as [Hlt|Hge].
    + destruct (IH (lon + 360) ltac:(lra)) as (k & ->).
      exists (S k). rewrite S_INR. f_equal. ring.
    + exists O. cbn. f_equal. ring.
Qed.

(** With enough turns allowed, [normalizeLongitude] returns, and its result
    is the longitude moved by whole turns. *)
Lemma normalizeLongitude_spec (lon : R) :
  exists N : nat, forall fuel : nat, (N <= fuel)%nat ->
    exists z : Z,
      Client.normalizeLongitude fuel lon = Some (lon + 360 * IZR z).
Proof.
  set (u := up (Rabs lon / 360)).
  destruct (archimed (Rabs lon / 360)) as [Hu _]. fold u in Hu.
  pose proof (Rabs_pos lon) as Habs.
  assert (Hu0 : (0 <= u)%Z).
  { apply le_IZR. assert (0 <= Rabs lon / 360) by lra. lra. }
  exists (Z.to_nat u). intros fuel Hfuel.
  assert (Hf : Rabs lon <= 360 * INR fuel).
  { apply le_INR in Hfuel. rewrite INR_IZR_INZ, Z2Nat.id in Hfuel by lia. lra. }
  assert (Hl : - Rabs lon <= lon <= Rabs lon).
  { split; [pose proof (Rle_abs (- lon)) as H; rewrite Rabs_Ropp in H; lra
           |apply Rle_abs]. }
  destruct (lower_spec fuel lon ltac:(lra)) as (k & Hlow & Hk).
  destruct (raise_spec fuel (lon - 360 * INR k)) as (j & Hraise).
  { destruct Hk as [->|Hk]; [cbn; lra|].
    pose proof (pos_INR fuel). lra. }
  exists (Z.of_nat j - Z.of_nat k)%Z.
  unfold Client.normalizeLongitude. rewrite Hlow. cbn. rewrite Hraise.
  f_equal. rewrite minus_IZR, <- !INR_IZR_INZ. ring.
Qed.

Lemma sin_sqr_turns_nat (n : nat) (x : R) :
  sin (x + INR n * PI) * sin (x + INR n * PI) = sin x * sin x.
Proof.
  induction n as [|n IH].
  - cbn. by replace (x + 0 * PI) with x by ring.
  - rewrite S_INR.
    replace (x + (INR n + 1) * PI) with (x + INR n * PI + PI) by ring.
    rewrite neg_sin. rewrite <- IH. ring.
Qed.

Lemma sin_sqr_turns (z : Z) (x : R) :
  sin (x + IZR z * PI) * sin (x + IZR z * PI) = sin x * sin x.
Proof.
  destruct (Z_lt_le_dec z 0) as [Hneg|Hpos].
  - rewrite <- (sin_sqr_turns_nat (Z.to_nat (- z)) (x + IZR z * PI)).
    rewrite INR_IZR_INZ, Z2Nat.id, opp_IZR by lia.
    by replace (x + IZR z * PI + - IZR z * PI) with x by ring.
  - rewrite <- (Z2Nat.id z) by lia. rewrite <- INR_IZR_INZ.
    apply sin_sqr_turns_nat.
Qed.

(** X20.  The distance the browser displays is the distance the server
    scores: whatever the coordinates, [calculateDistance] of [game.js], its
    two loops given enough turns, returns what [calculateDistance] of the
    game service returns, although only the former normalizes longitudes. *)
Theorem client_distance_agrees (lat1 lon1 lat2 lon2 : R) :
  exists N : nat, forall fuel : nat, (N <= fuel)%nat ->
    Client.calculateDistance fuel lat1 lon1 lat2 lon2
    = Some (Scoring.calculateDistance lat1 lon1 lat2 lon2).
Proof.
  destruct (normalizeLongitude_spec lon1) as (N1 & H1).
  destruct (normalizeLongitude_spec lon2) as (N2 & H2).
  exists (Nat.max N1 N2). intros fuel Hfuel.
  destruct (H1 fuel ltac:(lia)) as (z1 & Hz1).
  destruct (H2 fuel ltac:(lia)) as (z2 & Hz2).
  unfold Client.calculateDistance. rewrite Hz1. cbn. rewrite Hz2. cbn.
  f_equal. rewrite calculateDistance_unfold. cbv zeta.
  unfold Client.toRad, Scoring.toRad.
  set (d := lon2 + 360 * IZR z2 - (lon1 + 360 * IZR z1)).
  assert (Hturns : exists z : Z,
    (if Rlt_dec (if Rlt_dec 180 d then d - 360 else d) (-180)
     then (if Rlt_dec 180 d then d - 360 else d) + 360
     else if Rlt_dec 180 d then d - 360 else d)
    = lon2 - lon1 + 360 * IZR z).
  { destruct (Rlt_dec 180 d);
      [destruct (Rlt_dec (d - 360) (-180))|destruct (Rlt_dec d (-180))].
    - exists (z2 - z1)%Z. unfold d. rewrite minus_IZR. ring.
    - exists (z2 - z1 - 1)%Z. unfold d. rewrite !minus_IZR. ring.
    - exists (z2 - z1 + 1)%Z. unfold d. rewrite plus_IZR, minus_IZR. ring.
    - exists (z2 - z1)%Z. unfold d. rewrite minus_IZR. ring. }
  destruct Hturns as (z & ->).
  replace ((lon2 - lon1 + 360 * IZR z) * (PI / 180) / 2)
    with ((lon2 - lon1) * (PI / 180) / 2 + IZR z * PI) by field.
  set (x := (lon2 - lon1) * (PI / 180) / 2).
  pose proof (sin_sqr_turns z x) as Hs.
  set (h := sin ((lat2 - lat1) * (PI / 180) / 2) * sin ((lat2 - lat1) * (PI / 180) / 2)).
  set (c := cos (lat1 * (PI / 180)) * cos (lat2 * (PI / 180))).
  replace (h + c * sin (x + IZR z * PI) * sin (x + IZR z * PI))
    with (h + c * sin x * sin x) by (rewrite !Rmult_assoc, Hs; ring).
  reflexivity.
Qed.

End ClientFacts.

Lemma getPhotoForLocation_served_again_witness :
  let first :=
    Game.getPhotoForLocation Demo.services (JStr "0") 45%float (-122)%float
      Demo.world in
  let p := Located.mk "https://images.example/1" "Photo by A on Unsplash"
             "Somewhere" 45%float (-122)%float 0%float in
  first.1 = Some p
  ∧ (Game.getPhotoForLocation Demo.services (JStr "0") 46%float (-120)%float
       first.2).1
    = Some (Located.mk (Located.url p) (Located.attribution p)
              (Located.locationName p) 46%float (-120)%float 0%float).
Proof.
  cbv zeta.
  assert (Hp : (Game.getPhotoForLocation Demo.services (JStr "0") 45%float
                  (-122)%float Demo.world).1
               = Some (Located.mk "https://images.example/1"
                         "Photo by A on Unsplash" "Somewhere" 45%float
                         (-122)%float 0%float)) by (vm_compute; reflexivity).
  assert (Hfresh : ∀ c,
    (Game.loadCache
       (Game.getPhotoForLocation Demo.services (JStr "0") 45%float
          (-122)%float Demo.world).2).1
      !! Host.String_of Demo.services (JStr "0") = Some c →
    (Game.isCacheValid Demo.services c
       (Game.getPhotoForLocation Demo.services (JStr "0") 45%float
          (-122)%float Demo.world).2).1 = true).
  { intros c Hc. vm_compute in Hc. injection Hc as <-.
    vm_compute. reflexivity. }
  split; [exact Hp|].
  assert (Hkey : Host.String_of Demo.services (JStr "0") ≠ "__proto__")
    by (cbn; discriminate).
  exact (getPhotoForLocation_served_again Demo.services (JStr "0") 45%float
           (-122)%float 46%float (-120)%float Demo.world _ Hkey eq_refl I Hp
           Hfresh).
Defined.
